(** * Verification of the gateway decision core

    A shallow embedding of the decision engine of the repository
    (firewall_engine and zero_trust_control) and the proofs of its
    documented properties.

    - [Py]        the Python values the dictionaries of the program hold
    - [Firewall]  firewall_engine/rule_engine.py, packet_filter.py,
                  response_automation.py
    - [Policy]    zero_trust_control/access_rules.py
    - [Identity]  zero_trust_control/identity_verification.py
    - [Session]   zero_trust_control/session_monitor.py

    The properties follow the definitions, one module of facts per module of
    the program.  Integers are unbounded ([Z]), floats are binary64
    ([PrimFloat]), dictionaries are finite maps; the files, the action log and
    the clock are passed explicitly as state. *)

From Stdlib Require Import ZArith Bool List Lia Sorted.
From Stdlib Require Import Floats.
From stdpp Require Import gmap strings list fin_maps pretty.

Set Warnings "-inexact-float".
Open Scope Z_scope.

(** ** Python values *)

Module Py.

(** The scalar values found in the dictionaries of the program: [None],
    booleans, unbounded integers, binary64 floats and strings.  A string is
    held as its UTF-8 encoding.

    The values of Python are objects, and [x in [...]] looks at their identity
    before it compares them.  An object that is identical to another also
    equals it, with one exception: a NaN, which equals nothing, itself
    included.  So the identity of an object shows only when the object is a
    NaN, and only a NaN carries one here: [VNaN o] is the NaN object of
    identity [o].  A binary64 float has one NaN; [VFloat nan] stands for the
    one NaN object of the [json] decoder ([json.decoder.NaN], which
    [json.load] returns for every NaN it reads), [VNaN o] for any other. *)
Inductive value :=
  | VNone
  | VBool (b : bool)
  | VInt (z : Z)
  | VFloat (f : float)
  | VNaN (o : N)
  | VStr (s : string).

(** A [Dict[str, Any]] whose values are scalars. *)
Abbreviation dict := (gmap string value).

(** [d.get(k)]: the value under [k], [None] when the key is absent. *)
Definition get (d : dict) (k : string) : value := default VNone (d !! k).

(** [d.get(k, dflt)]. *)
Definition get_or (d : dict) (k : string) (dflt : value) : value :=
  default dflt (d !! k).

(** The exact rational value [(-1)^s * m * 2^e] of a finite float is compared
    with an integer without rounding, as Python does for [int] against
    [float]. *)
Definition signed (s : bool) (m : positive) : Z :=
  if s then Z.neg m else Z.pos m.

(** [z == f] for an integer [z] and a float [f]. *)
Definition Z_eq_float (z : Z) (f : float) : bool :=
  match Prim2SF f with
  | S754_zero _ => z =? 0
  | S754_infinity _ => false
  | S754_nan => false
  | S754_finite s m e =>
      if 0 <=? e then z =? signed s m * 2 ^ e
      else z * 2 ^ (- e) =? signed s m
  end.

(** [z > f] for an integer [z] and a float [f]. *)
Definition Z_gt_float (z : Z) (f : float) : bool :=
  match Prim2SF f with
  | S754_zero _ => 0 <? z
  | S754_infinity s => s
  | S754_nan => false
  | S754_finite s m e =>
      if 0 <=? e then signed s m * 2 ^ e <? z
      else signed s m <? z * 2 ^ (- e)
  end.

(** A [bool] is an [int] in Python: [True == 1] and [False == 0]. *)
Definition Z_of_bool (b : bool) : Z := if b then 1 else 0.

(** [a == b].  Values of unrelated types are unequal; numbers compare by
    value across [bool], [int] and [float]; floats compare as IEEE 754 does
    (a NaN equals nothing, whichever object it is). *)
Definition py_eq (a b : value) : bool :=
  match a, b with
  | VNone, VNone => true
  | VStr s, VStr t => String.eqb s t
  | VBool x, VBool y => Z_of_bool x =? Z_of_bool y
  | VBool x, VInt z | VInt z, VBool x => Z_of_bool x =? z
  | VInt x, VInt y => x =? y
  | VBool x, VFloat f | VFloat f, VBool x => Z_eq_float (Z_of_bool x) f
  | VInt z, VFloat f | VFloat f, VInt z => Z_eq_float z f
  | VFloat f, VFloat g => PrimFloat.eqb f g
  | _, _ => false
  end.

(** [x is e] where it is not implied by [x == e]: both are the same NaN
    object, the one of the decoder or one of the program with the same
    identity. *)
Definition same_nan (x e : value) : bool :=
  match x, e with
  | VNaN o, VNaN o' => (o =? o')%N
  | VFloat f, VFloat g => PrimFloat.is_nan f && PrimFloat.is_nan g
  | _, _ => false
  end.

(** [x in [a, b, ...]], which is [any(x is e or x == e for e in [a, b, ...])]:
    some element of the list is [x] itself or equals [x]. *)
Definition py_in (x : value) (l : list value) : bool :=
  existsb (fun e => same_nan x e || py_eq x e) l.

(** [bool(v)], the truth value used by [if v:]. *)
Definition py_bool (v : value) : bool :=
  match v with
  | VNone => false
  | VBool b => b
  | VInt z => negb (z =? 0)
  | VFloat f => negb (PrimFloat.eqb f 0%float)
  | VNaN _ => true
  | VStr s => negb (String.eqb s EmptyString)
  end.

(** [if d:] for a dictionary: true unless it is empty. *)
Definition dict_bool (d : dict) : bool := negb (bool_decide (size d = 0%nat)).

Section Format.
(** [repr] of a float (the shortest decimal string that reads back to the
    same float) is computed by the interpreter; it is a parameter here. *)
Variable float_repr : float -> string.

(** [str(v)], as an f-string renders [{v}]. *)
Definition py_str (v : value) : string :=
  match v with
  | VNone => "None"
  | VBool true => "True"
  | VBool false => "False"
  | VInt z => pretty z
  | VFloat f => float_repr f
  | VNaN _ => float_repr PrimFloat.nan
  | VStr s => s
  end.
End Format.

(** The examples format no float: any rendering serves them. *)
Definition any_repr (_ : float) : string := "<float>".

(** Exceptions raised by the modelled code, with the name of their class and
    their message.  [Exception] holds the instances of the class [Exception],
    which [except Exception] catches; [BaseException] holds the others, the
    instances of [SystemExit], [KeyboardInterrupt] and [GeneratorExit], which
    it lets through. *)
Inductive exn :=
  | Exception (class msg : string)
  | BaseException (class msg : string).

Definition TypeError (msg : string) : exn := Exception "TypeError" msg.

Inductive result (A : Type) :=
  | Ok (a : A)
  | Raise (e : exn).
Arguments Ok {A} a.
Arguments Raise {A} e.

(** What was returned, if anything. *)
Definition option_of {A} (r : result A) : option A :=
  match r with
  | Ok a => Some a
  | Raise _ => None
  end.

(** [v > c] for a float literal [c]: numbers compare by value, anything else
    raises [TypeError]. *)
Definition py_gt_float (v : value) (c : float) : result bool :=
  match v with
  | VBool b => Ok (Z_gt_float (Z_of_bool b) c)
  | VInt z => Ok (Z_gt_float z c)
  | VFloat f => Ok (PrimFloat.ltb c f)
  | VNaN _ => Ok false
  | VNone => Raise (TypeError "'>' not supported between instances of 'NoneType' and 'float'")
  | VStr _ => Raise (TypeError "'>' not supported between instances of 'str' and 'float'")
  end.

(** A byte [10xxxxxx] of a UTF-8 string continues the character begun
    before it. *)
Definition continuation (c : Ascii.ascii) : bool :=
  let n := Ascii.nat_of_ascii c in (128 <=? n)%nat && (n <? 192)%nat.

(** [s[:n]]: the first [n] characters of a string, each with all its bytes. *)
Fixpoint py_prefix (n : nat) (s : string) : string :=
  match s with
  | EmptyString => EmptyString
  | String c rest =>
      if continuation c then String c (py_prefix n rest)
      else match n with
           | O => EmptyString
           | S n' => String c (py_prefix n' rest)
           end
  end.

End Py.

Import Py.

(** ** The packet rule store, the packet filter and the response dispatcher *)

Module Firewall.

(** *** The persisted document

    [json.dump] and [json.load] belong to the Python library; the rules file is
    modelled by the JSON data it holds, an array of objects whose members are
    scalars, and not by its text.  A NaN is written as the token [NaN],
    whichever object it was, and every such token is read as the one NaN
    object of the decoder. *)
Inductive json :=
  | JNull
  | JBool (b : bool)
  | JInt (z : Z)
  | JFloat (f : float)
  | JString (s : string).

(** A JSON object as it is written: its members in order. *)
Abbreviation json_object := (list (string * json)).
Abbreviation document := (list json_object).

Definition to_json (v : value) : json :=
  match v with
  | VNone => JNull
  | VBool b => JBool b
  | VInt z => JInt z
  | VFloat f => JFloat f
  | VNaN _ => JFloat PrimFloat.nan
  | VStr s => JString s
  end.

Definition of_json (j : json) : value :=
  match j with
  | JNull => VNone
  | JBool b => VBool b
  | JInt z => VInt z
  | JFloat f => VFloat f
  | JString s => VStr s
  end.

(** [json.dump(rules, f)]: every dictionary becomes an object with one member
    per key.  (A dictionary is read by key, so the order in which an object
    lists its members is immaterial; the order of the objects is kept.) *)
Definition json_dump (rs : list dict) : document :=
  map (fun r : dict => map_to_list (to_json <$> r)) rs.

(** [json.load(f)]: every object becomes a dictionary; when a name is repeated
    the last member wins. *)
Definition json_load (doc : document) : list dict :=
  map (fun o : json_object => of_json <$> (list_to_map (reverse o) : gmap string json)) doc.

(** What a value is once it was written and read: itself, unless it is a NaN
    object of the program, which comes back as the NaN object of the decoder. *)
Definition reloaded (v : value) : value :=
  match v with
  | VNaN _ => VFloat PrimFloat.nan
  | _ => v
  end.

(** The value is a NaN object other than the decoder's. *)
Definition own_nan (v : value) : bool :=
  match v with
  | VNaN _ => true
  | _ => false
  end.

(** No value of the rules is such a NaN object. *)
Definition no_own_nan (rs : list dict) : Prop :=
  Forall (map_Forall (fun _ v => own_nan v = false)) rs.

(** No field that [match] reads is such a NaN object. *)
Definition matches_by_value (rule : dict) : Prop :=
  Forall (fun k => own_nan (get rule k) = false) ["src_ip"; "dst_ip"; "protocol"; "port"]%string.

(** *** Action log entries *)

(** The data of a log entry: a dictionary whose values are scalars or, for an
    alert, the packet. *)
Inductive payload :=
  | PScalar (v : value)
  | PDict (d : dict).

Record LogEntry := {
  timestamp : nat;   (* which reading of the clock it was *)
  action : string;
  data : gmap string payload
}.

(** *** The world outside the objects: files, the action log, the clock *)
Record World := {
  files : gmap string document;   (* the rules files, by path *)
  action_log : list LogEntry;     (* firewall_engine/logs/actions.log *)
  clock : nat                     (* readings of the clock taken so far *)
}.

(** *** rule_engine.py *)

Record RuleEngine := {
  persist_path : string;
  rules : list dict
}.

Definition load (e : RuleEngine) (w : World) : RuleEngine :=
  match files w !! persist_path e with
  | Some doc => {| persist_path := persist_path e; rules := json_load doc |}
  | None => e
  end.

Definition save (e : RuleEngine) (w : World) : World :=
  {| files := <[persist_path e := json_dump (rules e)]> (files w);
     action_log := action_log w;
     clock := clock w |}.

(** [RuleEngine(persist_path)]. *)
Definition init (path : string) (w : World) : RuleEngine :=
  load {| persist_path := path; rules := [] |} w.

(** The engine with its rules as they are once written and read. *)
Definition reopened (e : RuleEngine) : RuleEngine :=
  {| persist_path := persist_path e;
     rules := map (fun r : dict => reloaded <$> r) (rules e) |}.

Definition add_rule (rule : dict) (e : RuleEngine) (w : World) : RuleEngine * World :=
  let e' := {| persist_path := persist_path e; rules := rules e ++ [rule] |} in
  (e', save e' w).

Definition remove_rule (rule_id : string) (e : RuleEngine) (w : World) : RuleEngine * World :=
  let e' := {| persist_path := persist_path e;
               rules := filter (fun r : dict => negb (py_eq (get r "id") (VStr rule_id)) = true) (rules e) |} in
  (e', save e' w).

(** The condition of the loop of [match]. *)
Definition rule_matches (rule packet : dict) : bool :=
  py_in (get rule "src_ip") [get packet "src_ip"; VStr "*"]
  && py_in (get rule "dst_ip") [get packet "dst_ip"; VStr "*"]
  && py_in (get rule "protocol") [get packet "protocol"; VStr "*"]
  && py_in (get rule "port") [get packet "port"; VStr "*"; VNone].

Fixpoint match_rules (rs : list dict) (packet : dict) : option dict :=
  match rs with
  | [] => None
  | rule :: rest =>
      if rule_matches rule packet then Some rule else match_rules rest packet
  end.

(** [RuleEngine.match]. *)
Definition match_ (e : RuleEngine) (packet : dict) : option dict :=
  match_rules (rules e) packet.

(** [RuleEngine.decide]: [rule.get("action") if rule else "deny"]; an empty
    dictionary is false as [None] is. *)
Definition decide (e : RuleEngine) (packet : dict) : value :=
  match match_ e packet with
  | Some rule => if dict_bool rule then get rule "action" else VStr "deny"
  | None => VStr "deny"
  end.

(** A rule field accepts a packet when it is the wildcard or equals the
    packet's field. *)
Definition field_accepts (rule packet : dict) (k : string) : bool :=
  py_eq (get rule k) (VStr "*") || py_eq (get rule k) (get packet k).

(** The matching condition in the words of the specification: each of the four
    fields is the wildcard or equal to the packet's field.  It is compared
    with [rule_matches] below. *)
Definition spec_rule_matches (rule packet : dict) : bool :=
  field_accepts rule packet "src_ip"
  && field_accepts rule packet "dst_ip"
  && field_accepts rule packet "protocol"
  && field_accepts rule packet "port".

Section Responses.
Variable float_repr : float -> string.

(** *** packet_filter.py *)

(** The dictionary [inspect_packet] returns and [respond_to_decision] reads
    with [.get]: a key may be absent there. *)
Record Decision := {
  decision : option value;
  reason : option string;
  packet : option dict
}.

Definition inspect_packet (e : RuleEngine) (pkt : dict) : result Decision :=
  let by_rules :=
    let d := decide e pkt in
    Ok {| decision := Some d;
          reason := Some ("Rule-based decision (" ++ py_str float_repr d ++ ")")%string;
          packet := Some pkt |} in
  if py_eq (get pkt "ai_pred") (VStr "malicious") then
    match py_gt_float (get_or pkt "ai_confidence" (VInt 0)) 0.8%float with
    | Raise err => Raise err
    | Ok true =>
        Ok {| decision := Some (VStr "block");
              reason := Some "AI detected malicious"%string;
              packet := Some pkt |}
    | Ok false => by_rules
    end
  else by_rules.

(** *** response_automation.py *)

Definition log_action (act : string) (d : gmap string payload) (w : World) : World :=
  {| files := files w;
     action_log := action_log w ++ [ {| timestamp := clock w; action := act; data := d |} ];
     clock := S (clock w) |}.

Definition block_ip (ip : value) (e : RuleEngine) (w : World) : RuleEngine * World :=
  let rule : dict :=
    <["id" := VStr ("auto_block_" ++ py_str float_repr ip)]>
    (<["src_ip" := ip]>
    (<["dst_ip" := VStr "*"]>
    (<["protocol" := VStr "*"]>
    (<["port" := VStr "*"]>
    (<["action" := VStr "deny"]> ∅))))) in
  let '(e', w') := add_rule rule e w in
  (e', log_action "block_ip" {[ "ip"%string := PScalar ip ]} w').

Definition isolate_host (host_ip : value) (w : World) : World :=
  log_action "isolate_host" {[ "host"%string := PScalar host_ip ]} w.

Definition send_alert (message : string) (details : dict) (w : World) : World :=
  log_action "alert"
    (<["message"%string := PScalar (VStr message)]>
     (<["details"%string := PDict details]> ∅)) w.

Definition respond_to_decision (d : Decision) (e : RuleEngine) (w : World)
  : RuleEngine * World :=
  let pkt : dict := default ∅ (packet d) in
  let verdict := default VNone (decision d) in
  if py_eq verdict (VStr "block") then
    let '(e', w') := block_ip (get pkt "src_ip") e w in
    (e', send_alert "Blocked malicious packet" pkt w')
  else if py_eq verdict (VStr "allow") then
    (e, log_action "allow" (PScalar <$> pkt) w)
  else
    (e, isolate_host (get pkt "src_ip") w).
End Responses.

(** The verdict of a returned decision, [None] when the call raised. *)
Definition verdict_of (r : result Decision) : option value :=
  match r with
  | Ok d => decision d
  | Raise _ => None
  end.

(** *** The data of the examples *)

(** The store of the examples: one engine, nothing on disk. *)
Definition empty_world : World := {| files := ∅; action_log := []; clock := 0 |}.
Definition empty_store : RuleEngine := {| persist_path := "firewall_engine/logs/rules.json"; rules := [] |}.

Definition r1 : dict :=
  <["id" := VStr "r1"]> (<["src_ip" := VStr "10.0.0.5"]> (<["dst_ip" := VStr "*"]>
  (<["protocol" := VStr "TCP"]> (<["port" := VInt 80]> (<["action" := VStr "allow"]> ∅))))).

Definition tcp_packet : dict :=
  <["src_ip" := VStr "10.0.0.5"]> (<["dst_ip" := VStr "8.8.8.8"]>
  (<["protocol" := VStr "TCP"]> (<["port" := VInt 80]> ∅))).

Definition udp_packet : dict := <["protocol" := VStr "UDP"]> tcp_packet.

(** A rule without a port. *)
Definition any_port_rule : dict :=
  <["id" := VStr "r2"]> (<["src_ip" := VStr "*"]> (<["dst_ip" := VStr "*"]>
  (<["protocol" := VStr "*"]> (<["action" := VStr "allow"]> ∅)))).

Definition any_port_store : RuleEngine :=
  {| persist_path := "firewall_engine/logs/rules.json"; rules := [any_port_rule] |}.

Definition r1_store : RuleEngine :=
  {| persist_path := "firewall_engine/logs/rules.json"; rules := [r1] |}.

(** A rule whose port is a NaN object, and the TCP packet with that same
    object as its port. *)
Definition nan_port_rule : dict :=
  <["id" := VStr "r3"]> (<["src_ip" := VStr "*"]> (<["dst_ip" := VStr "*"]>
  (<["protocol" := VStr "*"]> (<["port" := VNaN 1]> (<["action" := VStr "allow"]> ∅))))).

Definition nan_port_store : RuleEngine :=
  {| persist_path := "firewall_engine/logs/rules.json"; rules := [nan_port_rule] |}.

Definition nan_port_packet : dict := <["port" := VNaN 1]> tcp_packet.

(** The TCP packet, which r1 allows, with the verdict of the model attached. *)
Definition malicious_packet : dict :=
  <["ai_pred" := VStr "malicious"]> (<["ai_confidence" := VFloat 0.93%float]> tcp_packet).

(** What [inspect_packet] returns for a packet the store denies, for the
    malicious packet, and a decision that is neither. *)
Definition deny_decision : Decision :=
  {| decision := Some (VStr "deny");
     reason := Some "Rule-based decision (deny)"%string;
     packet := Some udp_packet |}.

Definition block_decision : Decision :=
  {| decision := Some (VStr "block");
     reason := Some "AI detected malicious"%string;
     packet := Some malicious_packet |}.

Definition quarantine_decision : Decision :=
  {| decision := Some (VStr "quarantine");
     reason := None;
     packet := Some udp_packet |}.

End Firewall.

(** ** The policy rule engine (zero_trust_control/access_rules.py) *)

Module Policy.

Section Engine.
(** The context and resource dictionaries are only handed to the predicates. *)
Context {Ctx Res : Type}.

(** A predicate is a Python callable: it returns a value or raises. *)
Record Rule := {
  name : string;
  predicate : Ctx -> Res -> result value;
  action : string;
  priority : Z
}.

(** [Rule.applies]: [bool(...)] of what the predicate returns, [False] when
    it raises an instance of [Exception]; any other exception goes on to the
    caller. *)
Definition applies (r : Rule) (context : Ctx) (resource : Res) : result bool :=
  match predicate r context resource with
  | Ok v => Ok (py_bool v)
  | Raise (Exception _ _) => Ok false
  | Raise err => Raise err
  end.

Record RuleEngine := { rules : list Rule }.

(** [RuleEngine()]. *)
Definition new_engine : RuleEngine := {| rules := [] |}.

(** [list.sort(key=lambda r: r.priority)] is a stable sort: ascending keys,
    equal keys in the order they had.  Its result is the one of the stable
    insertion sort below. *)
Fixpoint insert_by_priority (r : Rule) (l : list Rule) : list Rule :=
  match l with
  | [] => [r]
  | x :: rest =>
      if priority r <=? priority x then r :: x :: rest
      else x :: insert_by_priority r rest
  end.

Fixpoint sort_by_priority (l : list Rule) : list Rule :=
  match l with
  | [] => []
  | x :: rest => insert_by_priority x (sort_by_priority rest)
  end.

Definition add_rule (e : RuleEngine) (rule : Rule) : RuleEngine :=
  {| rules := sort_by_priority (rules e ++ [rule]) |}.

(** The dictionary [evaluate] returns. *)
Record Verdict := { verdict_action : string; verdict_rule : string }.

Definition default_deny : Verdict :=
  {| verdict_action := "deny"; verdict_rule := "default-deny" |}.

Fixpoint evaluate_rules (rs : list Rule) (context : Ctx) (resource : Res) : result Verdict :=
  match rs with
  | [] => Ok default_deny
  | r :: rest =>
      match applies r context resource with
      | Ok true => Ok {| verdict_action := action r; verdict_rule := name r |}
      | Ok false => evaluate_rules rest context resource
      | Raise err => Raise err
      end
  end.

Definition evaluate (e : RuleEngine) (context : Ctx) (resource : Res) : result Verdict :=
  evaluate_rules (rules e) context resource.

(** The rule applies: [applies] returns [True]. *)
Definition holds (r : Rule) (context : Ctx) (resource : Res) : bool :=
  match applies r context resource with
  | Ok b => b
  | Raise _ => false
  end.

(** The loop of [evaluate] ends at this rule: it applies, or an exception
    leaves it. *)
Definition stops (context : Ctx) (resource : Res) (r : Rule) : bool :=
  match applies r context resource with
  | Ok false => false
  | _ => true
  end.

(** What [evaluate] gives when its loop ends at the rule [r]. *)
Definition outcome (context : Ctx) (resource : Res) (r : Rule) : result Verdict :=
  match applies r context resource with
  | Ok _ => Ok {| verdict_action := action r; verdict_rule := name r |}
  | Raise err => Raise err
  end.

(** The engine after a sequence of [add_rule] calls on a new engine. *)
Definition add_rules (rs : list Rule) : RuleEngine := foldl add_rule new_engine rs.

(** Where the sort puts a rule appended to a sorted list: after the rules
    whose priority is not greater than its own. *)
Fixpoint insert_after_priority (r : Rule) (l : list Rule) : list Rule :=
  match l with
  | [] => [r]
  | x :: rest =>
      if priority r <? priority x then r :: x :: rest
      else x :: insert_after_priority r rest
  end.

(** The order of the priorities. *)
Definition priority_le (a b : Rule) : Prop := priority a <= priority b.

(** A rule whose predicate returns [False] where the predicate of [r] raises
    an instance of [Exception], and is the predicate of [r] elsewhere. *)
Definition silenced (r : Rule) : Rule :=
  {| name := name r;
     predicate := fun context resource =>
       match predicate r context resource with
       | Raise (Exception _ _) => Ok (VBool false)
       | other => other
       end;
     action := action r;
     priority := priority r |}.
End Engine.

Arguments Rule : clear implicits.
Arguments RuleEngine : clear implicits.

(** *** The data of the examples *)

(** A rule whose predicate looks up a key the context lacks. *)
Definition raising_rule : Rule dict dict :=
  {| name := "needs_score";
     predicate := fun _ _ => Raise (Exception "KeyError" "'trust_score'");
     action := "allow";
     priority := 10 |}.

(** A rule whose predicate calls [sys.exit()]. *)
Definition exiting_rule : Rule dict dict :=
  {| name := "exits";
     predicate := fun _ _ => Raise (BaseException "SystemExit" EmptyString);
     action := "allow";
     priority := 10 |}.

Definition never_rule : Rule dict dict :=
  {| name := "never";
     predicate := fun _ _ => Ok (VBool false);
     action := "allow";
     priority := 20 |}.

Definition allow_all : Rule dict dict :=
  {| name := "allow_all";
     predicate := fun _ _ => Ok (VBool true);
     action := "allow";
     priority := 20 |}.

Definition deny_all : Rule dict dict :=
  {| name := "deny_all";
     predicate := fun _ _ => Ok (VBool true);
     action := "deny";
     priority := 10 |}.

(** A rule with the name and priority given and a predicate that never
    holds: the order of the rules does not depend on the predicates. *)
Definition named (n : string) (p : Z) : Rule dict dict :=
  {| name := n; predicate := fun _ _ => Ok (VBool false); action := "allow"; priority := p |}.

End Policy.

(** ** The trust assessor (zero_trust_control/identity_verification.py) *)

Module Identity.

(** The assertions, with the keys their docstrings give; every key may be
    absent. *)
Record DeviceAssertion := {
  device_id : option string;
  os : option string;
  patch_level : option string;
  antivirus : option string;
  signed_by_mdm : option bool;
  device_presented_token : option string
}.

Record UserAssertion := {
  user_id : option string;
  auth_method : option string;
  mfa_ok : option bool;
  last_auth_time : option string;
  user_role : option string
}.

(** [{}] as an assertion. *)
Definition no_device : DeviceAssertion :=
  {| device_id := None; os := None; patch_level := None; antivirus := None;
     signed_by_mdm := None; device_presented_token := None |}.

Definition no_user : UserAssertion :=
  {| user_id := None; auth_method := None; mfa_ok := None;
     last_auth_time := None; user_role := None |}.

Record Context := {
  device_assertion : option DeviceAssertion;
  user_assertion : option UserAssertion;
  geo : option dict;
  blocked_countries : option (list value)
}.

Record Verdict := { ok : bool; score : float; reasons : list string }.

Record ContextVerdict := { allow : bool; ctx_score : float; ctx_reasons : list string }.

(** [min(a, b)] and [max(a, b)] of two floats: the first argument unless the
    second is strictly smaller (larger). *)
Definition py_min (a b : float) : float := if PrimFloat.ltb b a then b else a.
Definition py_max (a b : float) : float := if PrimFloat.ltb a b then b else a.

(** [max(0.0, min(1.0, score))]. *)
Definition clamp (x : float) : float := py_max 0 (py_min 1 x).

(** [d.get(k) == s] for an optional string. *)
Definition is_str (o : option string) (s : string) : bool :=
  match o with
  | Some x => String.eqb x s
  | None => false
  end.

(** [if s:] for an optional string: present and not empty. *)
Definition truthy (o : option string) : option string :=
  match o with
  | Some s => if String.eqb s EmptyString then None else Some s
  | None => None
  end.

Section Verification.
(** What the code takes from its environment:
    - [parse_date s] is [time.mktime(time.strptime(s, "%Y-%m-%d"))], [None]
      when that raises;
    - [sha256_hex s] is [hashlib.sha256(s.encode("utf8")).hexdigest()];
    - [float_repr] renders a float in an f-string. *)
Variable parse_date : string -> option float.
Variable sha256_hex : string -> string.
Variable float_repr : float -> string.

Definition _hash_token (token : string) : string := sha256_hex token.

(** [now] is the reading of [time.time()]. *)
Definition verify_device (now : float) (device_assertion : DeviceAssertion) : Verdict :=
  let reasons : list string := [] in
  let score := 0.5%float in
  let '(reasons, score) :=
    if default false (signed_by_mdm device_assertion)
    then (reasons ++ ["MDM signed"%string], (score + 0.3)%float)
    else (reasons ++ ["No MDM signature"%string], (score - 0.2)%float) in
  let '(reasons, score) :=
    if is_str (antivirus device_assertion) "up_to_date"
    then (reasons ++ ["AV up-to-date"%string], (score + 0.1)%float)
    else (reasons ++ ["AV outdated or missing"%string], (score - 0.1)%float) in
  let '(reasons, score) :=
    match truthy (patch_level device_assertion) with
    | Some patch =>
        match parse_date patch with
        | Some patch_ts =>
            let age_days := ((now - patch_ts) / 86400)%float in
            if PrimFloat.ltb age_days 30 then
              (reasons ++ ["Patch recent"%string], (score + 0.1)%float)
            else if PrimFloat.ltb age_days 90 then
              (reasons ++ ["Patch moderately recent"%string], (score + 0.0)%float)
            else
              (reasons ++ ["Patch old"%string], (score - 0.15)%float)
        | None => (reasons ++ ["Patch date parse failed"%string], (score - 0.05)%float)
        end
    | None => (reasons, score)
    end in
  let '(reasons, score) :=
    match truthy (device_presented_token device_assertion) with
    | Some token =>
        if String.eqb (py_prefix 6 (_hash_token token)) "000000"
        then (reasons ++ ["Device token valid"%string], (score + 0.2)%float)
        else (reasons ++ ["Device token present but not validated"%string], (score + 0.0)%float)
    | None => (reasons ++ ["No device token presented"%string], (score - 0.1)%float)
    end in
  let score := clamp score in
  {| ok := PrimFloat.leb 0.6 score; score := score; reasons := reasons |}.

Definition verify_user (now : float) (user_assertion : UserAssertion) : Verdict :=
  let reasons : list string := [] in
  let score := 0.5%float in
  let method := default "password"%string (auth_method user_assertion) in
  let '(reasons, score) :=
    if String.eqb method "mfa" || default false (mfa_ok user_assertion)
    then (reasons ++ ["MFA verified"%string], (score + 0.3)%float)
    else if String.eqb method "sso"
    then (reasons ++ ["SSO auth"%string], (score + 0.15)%float)
    else (reasons ++ ["Password-only or unknown auth"%string], (score - 0.2)%float) in
  let role := default "user"%string (user_role user_assertion) in
  let '(reasons, score) :=
    if String.eqb role "admin"
    then (reasons ++ ["Admin role -> requires stricter checks"%string], (score - 0.1)%float)
    else (reasons, score) in
  let '(reasons, score) :=
    match truthy (last_auth_time user_assertion) with
    | Some last =>
        match parse_date (py_prefix 10 last) with
        | Some t =>
            let age_days := ((now - t) / 86400)%float in
            if PrimFloat.ltb age_days 1 then
              (reasons ++ ["Recent authentication"%string], (score + 0.1)%float)
            else if PrimFloat.ltb 30 age_days then
              (reasons ++ ["Stale authentication"%string], (score - 0.1)%float)
            else (reasons, score)
        | None => (reasons ++ ["Could not parse last_auth_time"%string], (score - 0.05)%float)
        end
    | None => (reasons, score)
    end in
  let score := clamp score in
  {| ok := PrimFloat.leb 0.6 score; score := score; reasons := reasons |}.

(** [now_device] and [now_user] are the readings of [time.time()] in the two
    calls. *)
Definition verify_context (now_device now_user : float) (context : Context) : ContextVerdict :=
  let dres := verify_device now_device (default no_device (device_assertion context)) in
  let ures := verify_user now_user (default no_user (user_assertion context)) in
  let combined_score := (0.6 * score dres + 0.4 * score ures)%float in
  let reasons :=
    [ ("device:" ++ String.concat ";" (reasons dres))%string;
      ("user:" ++ String.concat ";" (reasons ures))%string ] in
  let '(combined_score, reasons) :=
    match geo context with
    | Some geo =>
        if dict_bool geo then
          let blocked_countries := default [] (blocked_countries context) in
          if py_in (get geo "country") blocked_countries then
            ((combined_score - 0.4)%float,
             reasons ++ [("geo:" ++ py_str float_repr (get geo "country") ++ " blocked")%string])
          else (combined_score, reasons)
        else (combined_score, reasons)
    | None => (combined_score, reasons)
    end in
  let combined_score := clamp combined_score in
  {| allow := PrimFloat.leb 0.65 combined_score;
     ctx_score := combined_score;
     ctx_reasons := reasons |}.
End Verification.

(** *** The scores the two verifications can return

    A score is 0.5 moved by one step per check and clamped, so it is one of
    finitely many floats. *)
Definition step_up (delta : float) (score : float) : float := (score + delta)%float.
Definition step_down (delta : float) (score : float) : float := (score - delta)%float.
Definition no_step (score : float) : float := score.

(** All results of one step of each group, in the order of the checks. *)
Definition reachable (groups : list (list (float -> float))) : list float :=
  foldl (fun scores group => f ← group; s ← scores; [f s]) [0.5%float] groups.

Definition device_scores : list float :=
  clamp <$> reachable
    [ [step_up 0.3; step_down 0.2];
      [step_up 0.1; step_down 0.1];
      [no_step; step_up 0.1; step_up 0.0; step_down 0.15; step_down 0.05];
      [step_up 0.2; step_up 0.0; step_down 0.1] ].

Definition user_scores : list float :=
  clamp <$> reachable
    [ [step_up 0.3; step_up 0.15; step_down 0.2];
      [step_down 0.1; no_step];
      [no_step; step_up 0.1; step_down 0.1; step_down 0.05] ].

(** The combined score of [verify_context] when the country is blocked. *)
Definition blocked_score (device_score user_score : float) : float :=
  clamp (0.6 * device_score + 0.4 * user_score - 0.4)%float.

(** *** The data of the examples *)

(** The best device and the best user: every check passes. *)
Definition best_device : DeviceAssertion :=
  {| device_id := Some "laptop001"%string; os := Some "Linux"%string;
     patch_level := Some "2025-09-30"%string; antivirus := Some "up_to_date"%string;
     signed_by_mdm := Some true; device_presented_token := Some "secret"%string |}.

Definition best_user : UserAssertion :=
  {| user_id := Some "alice"%string; auth_method := Some "mfa"%string; mfa_ok := Some true;
     last_auth_time := Some "2025-10-28T12:34:00Z"%string; user_role := Some "user"%string |}.

(** An environment in which every date is today's and every token is valid. *)
Definition today (_ : string) : option float := Some 1761600000%float.
Definition valid_hash (_ : string) : string := "000000ab"%string.

Definition blocked_context : Context :=
  {| device_assertion := Some best_device;
     user_assertion := Some best_user;
     geo := Some {[ "country"%string := VStr "KP" ]};
     blocked_countries := Some [VStr "KP"; VStr "IR"] |}.

Definition open_context : Context :=
  {| device_assertion := Some best_device;
     user_assertion := Some best_user;
     geo := Some {[ "country"%string := VStr "IN" ]};
     blocked_countries := Some [VStr "KP"; VStr "IR"] |}.

End Identity.

(** ** The session monitor (zero_trust_control/session_monitor.py) *)

Module Session.

(** An event, with the keys the docstring of [update_session] gives; every key
    may be absent. *)
Record SessionEvent := {
  ev_timestamp : option Z;
  src_ip : option string;
  dst_ip : option string;
  bytes : option Z;
  dport : option Z;
  event_type : option string
}.

(** An alert: [{"reason", "when", "bytes"}] or [{"reason", "when", "unique_dst"}]. *)
Record Alert := {
  reason : string;
  when : nat;
  alert_bytes : option Z;
  alert_unique_dst : option nat
}.

(** A session dictionary.  [alerts] and [ended_at] are keys that appear later
    ([setdefault], [end_session]).  Times are readings of the clock, named by
    their index. *)
Record SessionDict := {
  session_id : string;
  created_at : nat;
  last_seen : nat;
  context : dict;
  status : string;
  cumulative_bytes : Z;
  events_count : Z;
  alerts : option (list Alert);
  ended_at : option nat
}.

(** The state of the module: its two global dictionaries and the clock. *)
Record Monitor := {
  _sessions : gmap string SessionDict;
  _session_events : gmap string (list SessionEvent);   (* deques, [maxlen=500] *)
  clock : nat
}.

Definition initial : Monitor :=
  {| _sessions := ∅; _session_events := ∅; clock := 0 |}.

(** [deque(maxlen=n).append(x)]: when the deque is full its oldest element is
    dropped. *)
Definition deque_append {A} (maxlen : nat) (x : A) (l : list A) : list A :=
  let l' := l ++ [x] in drop (length l' - maxlen) l'.

(** [l[-n:]]. *)
Definition last_n {A} (n : nat) (l : list A) : list A := drop (length l - n) l.

(** [{e.get("dst_ip") for e in events if e.get("dst_ip")}]. *)
Definition unique_destinations (events : list SessionEvent) : gset string :=
  list_to_set (omap (fun e => Identity.truthy (dst_ip e)) events).

Definition create_session (session_id : string) (context : dict) (m : Monitor)
  : Monitor * SessionDict :=
  let s := {| session_id := session_id;
              created_at := clock m;
              last_seen := S (clock m);
              context := context;
              status := "active";
              cumulative_bytes := 0;
              events_count := 0;
              alerts := None;
              ended_at := None |} in
  ({| _sessions := <[session_id := s]> (_sessions m);
      _session_events := _session_events m;
      clock := S (S (clock m)) |}, s).

(** [s.setdefault("alerts", []).append(a)]. *)
Definition append_alert (a : Alert) (s : SessionDict) : SessionDict :=
  {| session_id := session_id s; created_at := created_at s; last_seen := last_seen s;
     context := context s; status := status s; cumulative_bytes := cumulative_bytes s;
     events_count := events_count s;
     alerts := Some (default [] (alerts s) ++ [a]);
     ended_at := ended_at s |}.

Definition set_status (st : string) (s : SessionDict) : SessionDict :=
  {| session_id := session_id s; created_at := created_at s; last_seen := last_seen s;
     context := context s; status := st; cumulative_bytes := cumulative_bytes s;
     events_count := events_count s; alerts := alerts s; ended_at := ended_at s |}.

Definition update_session (session_id0 : string) (event : SessionEvent) (m : Monitor)
  : Monitor * SessionDict :=
  let '(m, s) :=
    match _sessions m !! session_id0 with
    | Some s => (m, s)
    | None => create_session session_id0 ∅ m
    end in
  let now := clock m in
  let clk := S now in
  let b := default 0 (bytes event) in
  let s := {| session_id := session_id s; created_at := created_at s;
              last_seen := now;
              context := context s; status := status s;
              cumulative_bytes := cumulative_bytes s + b;
              events_count := events_count s + 1;
              alerts := alerts s; ended_at := ended_at s |} in
  let events := deque_append 500 event (default [] (_session_events m !! session_id0)) in
  let '(s, clk) :=
    if 100 * 1024 * 1024 <? cumulative_bytes s then
      (append_alert {| reason := "high_data_transfer"; when := clk;
                       alert_bytes := Some (cumulative_bytes s);
                       alert_unique_dst := None |}
         (set_status "suspicious" s), S clk)
    else (s, clk) in
  let last_events := last_n 50 events in
  let unique_dst := size (unique_destinations last_events) in
  let '(s, clk) :=
    if (20 <? unique_dst)%nat then
      (append_alert {| reason := "many_unique_destinations"; when := clk;
                       alert_bytes := None;
                       alert_unique_dst := Some unique_dst |}
         (set_status "suspicious" s), S clk)
    else (s, clk) in
  ({| _sessions := <[session_id0 := s]> (_sessions m);
      _session_events := <[session_id0 := events]> (_session_events m);
      clock := clk |}, s).

(** What [check_session] returns: the session dictionary, or
    [{"session_id": ..., "status": "not_found"}]. *)
Inductive Report :=
  | Found (s : SessionDict)
  | NotFound (session_id : string).

Definition report_status (r : Report) : string :=
  match r with
  | Found s => status s
  | NotFound _ => "not_found"
  end.

Definition check_session (session_id0 : string) (m : Monitor) : Monitor * Report :=
  match _sessions m !! session_id0 with
  | None => (m, NotFound session_id0)
  | Some s =>
      let alerts := default [] (alerts s) in
      if (2 <=? length alerts)%nat then
        let s := set_status "quarantined" s in
        ({| _sessions := <[session_id0 := s]> (_sessions m);
            _session_events := _session_events m;
            clock := clock m |}, Found s)
      else (m, Found s)
  end.

Definition end_session (session_id0 : string) (m : Monitor) : Monitor :=
  match _sessions m !! session_id0 with
  | Some s =>
      {| _sessions :=
           <[session_id0 :=
               {| session_id := session_id s; created_at := created_at s;
                  last_seen := last_seen s; context := context s;
                  status := "ended"; cumulative_bytes := cumulative_bytes s;
                  events_count := events_count s; alerts := alerts s;
                  ended_at := Some (clock m) |}]> (_sessions m);
         _session_events := _session_events m;
         clock := S (clock m) |}
  | None => m
  end.

(** The operations of the monitor, to speak of their sequences. *)
Inductive Op :=
  | Create (session_id : string) (context : dict)
  | Update (session_id : string) (event : SessionEvent)
  | Check (session_id : string)
  | End_ (session_id : string).

Definition step (m : Monitor) (op : Op) : Monitor :=
  match op with
  | Create sid ctx => fst (create_session sid ctx m)
  | Update sid ev => fst (update_session sid ev m)
  | Check sid => fst (check_session sid m)
  | End_ sid => end_session sid m
  end.

Definition run (m : Monitor) (ops : list Op) : Monitor := foldl step m ops.

(** The alerts of a session tagged with a reason. *)
Definition alerts_tagged (tag : string) (s : SessionDict) : list Alert :=
  filter (fun a => reason a = tag) (default [] (alerts s)).

(** The cumulative byte counter of a session, if the session exists. *)
Definition counter (m : Monitor) (session_id0 : string) : option Z :=
  cumulative_bytes <$> _sessions m !! session_id0.

(** The operations that do not lower the counter of the session [sid]: all
    but a [create_session] for [sid] itself and an [update_session] of [sid]
    with a negative byte count. *)
Definition keeps_counter (sid : string) (op : Op) : Prop :=
  match op with
  | Create sid' _ => sid' <> sid
  | Update sid' ev => sid' <> sid \/ 0 <= default 0 (bytes ev)
  | Check _ => True
  | End_ _ => True
  end.

(** *** The data of the examples *)

(** An event of [n] bytes to the destination [dst]. *)
Definition flow (dst : string) (n : Z) : SessionEvent :=
  {| ev_timestamp := Some 1234567; src_ip := Some "10.0.0.5"%string;
     dst_ip := Some dst; bytes := Some n; dport := Some 443;
     event_type := Some "flow"%string |}.

(** An event without a byte count. *)
Definition probe : SessionEvent :=
  {| ev_timestamp := None; src_ip := None; dst_ip := None; bytes := None;
     dport := None; event_type := Some "probe"%string |}.

Definition MiB : Z := 1048576.

(** A monitor with the session "s1" just created. *)
Definition fresh_monitor : Monitor := fst (create_session "s1" ∅ initial).

(** The session "s1" after two events of 200 MiB: it carries two alerts. *)
Definition alerted_monitor : Monitor :=
  run fresh_monitor [Update "s1" (flow "8.8.8.8" (200 * MiB)); Update "s1" (flow "8.8.8.8" (200 * MiB))].

Definition alerted_session : SessionDict :=
  {| session_id := "s1"; created_at := 0; last_seen := 4; context := ∅;
     status := "suspicious"; cumulative_bytes := 400 * MiB; events_count := 2;
     alerts := Some [ {| reason := "high_data_transfer"; when := 3;
                         alert_bytes := Some (200 * MiB); alert_unique_dst := None |};
                      {| reason := "high_data_transfer"; when := 5;
                         alert_bytes := Some (400 * MiB); alert_unique_dst := None |} ];
     ended_at := None |}.

End Session.

(** ** The threat feed (threat_intelligence/rule_updater.py) *)

Module Feed.
Import Firewall.

(** The deny rule written for an address of the feed. *)
Definition feed_rule (ip : string) : dict :=
  <["id" := VStr ("threat_feed_" ++ ip)]>
  (<["src_ip" := VStr ip]>
  (<["dst_ip" := VStr "*"]>
  (<["protocol" := VStr "*"]>
  (<["port" := VStr "*"]>
  (<["action" := VStr "deny"]> ∅))))).

(** [update_firewall_rules(parsed_data, rule_engine)]: one [add_rule] for each
    of the first 1000 addresses under the key "ips". *)
Definition update_firewall_rules (parsed_data : gmap string (list string))
    (e : RuleEngine) (w : World) : RuleEngine * World :=
  let ips := default [] (parsed_data !! "ips") in
  foldl (fun '(e, w) ip => add_rule (feed_rule ip) e w) (e, w) (take 1000 ips).

End Feed.

(** ** The firewall as a whole (firewall_engine/integration.py) *)

Module Integration.
Import Firewall.

Section Process.
Variable parse_date : string -> option float.
Variable sha256_hex : string -> string.
Variable float_repr : float -> string.

(** What [process_packet] leaves behind and returns: the packet of the caller
    (it is updated in place), the engine, the world, and the dictionary
    returned unless [inspect_packet] raised. *)
Record Processed := {
  caller_packet : dict;
  engine : RuleEngine;
  world : World;
  returned : result (Identity.ContextVerdict * Decision)
}.

(** [AIFirewall.process_packet(packet, context)]; the packet filter of an
    [AIFirewall] holds the rule engine of the firewall itself. *)
Definition process_packet (now_device now_user : float)
    (packet : dict) (context : Identity.Context) (e : RuleEngine) (w : World) : Processed :=
  let zt := Identity.verify_context parse_date sha256_hex float_repr now_device now_user context in
  let trust_score := Identity.ctx_score zt in
  let packet := <["trust_score" := VFloat trust_score]> packet in
  match inspect_packet float_repr e packet with
  | Raise err =>
      {| caller_packet := packet; engine := e; world := w; returned := Raise err |}
  | Ok decision =>
      let '(e', w') := respond_to_decision float_repr decision e w in
      {| caller_packet := packet; engine := e'; world := w';
         returned := Ok (zt, decision) |}
  end.
End Process.

End Integration.

(** ** The rules of the default policy (zero_trust_control/access_rules.py) *)

Module PolicyRules.
Import Policy.

(** The context dictionary as the predicates of the module read it: the two
    keys of the score, the user assertion and the geo attributes (both
    dictionaries) and the offset of the time zone, a number of hours.  A key
    may be absent. *)
Record RequestContext := {
  trust_score : option value;
  score : option value;
  user_assertion : option dict;
  geo : option dict;
  time_zone_offset : option Z
}.

(** What a predicate is evaluated on: the hour of [datetime.utcnow()] at that
    moment, and the context. *)
Abbreviation Env := (Z * RequestContext)%type.

(** [float(z)] for an integer: the nearest float, ties to even;
    [OverflowError] when there is none. *)
Definition float_of_Z (z : Z) : result float :=
  let f := SF2Prim (binary_normalize 53 1024 z 0 false) in
  if PrimFloat.is_infinity f
  then Raise (Exception "OverflowError" "int too large to convert to float")
  else Ok f.

(** [z < f] for an integer [z] and a float [f], without rounding. *)
Definition Z_lt_float (z : Z) (f : float) : bool :=
  match Prim2SF f with
  | S754_zero _ => z <? 0
  | S754_infinity s => negb s
  | S754_nan => false
  | S754_finite s m e =>
      if 0 <=? e then z <? signed s m * 2 ^ e
      else z * 2 ^ (- e) <? signed s m
  end.

(** [v < c] for a float [c]. *)
Definition py_lt_float (v : value) (c : float) : result bool :=
  match v with
  | VBool b => Ok (Z_lt_float (Z_of_bool b) c)
  | VInt z => Ok (Z_lt_float z c)
  | VFloat f => Ok (PrimFloat.ltb f c)
  | VNaN _ => Ok false
  | VNone => Raise (TypeError "'<' not supported between instances of 'NoneType' and 'float'")
  | VStr _ => Raise (TypeError "'<' not supported between instances of 'str' and 'float'")
  end.

Section Rules.
(** [float(s)] for a string is the parser of the interpreter: [None] when it
    raises [ValueError]. *)
Variable float_of_string : string -> option float.
Context {Res : Type}.

(** [float(v)]. *)
Definition py_float (v : value) : result float :=
  match v with
  | VNone => Raise (TypeError "float() argument must be a string or a real number, not 'NoneType'")
  | VBool b => float_of_Z (Z_of_bool b)
  | VInt z => float_of_Z z
  | VFloat f => Ok f
  | VNaN _ => Ok PrimFloat.nan
  | VStr s =>
      match float_of_string s with
      | Some f => Ok f
      | None => Raise (Exception "ValueError" "could not convert string to float")
      end
  end.

(** [a or b]: [a] when it is true, else [b]. *)
Definition py_or (a b : value) : value := if py_bool a then a else b.

(** [context.get("trust_score") or context.get("score") or 0.0]. *)
Definition score_of (context : RequestContext) : value :=
  py_or (py_or (default VNone (trust_score context)) (default VNone (score context)))
        (VFloat 0.0).

Definition always_allow_admin_network (env : Env) (resource : Res) : result value :=
  let context := snd env in
  let u : dict := default ∅ (user_assertion context) in
  let geo : dict := default ∅ (geo context) in
  if py_eq (get u "user_role") (VStr "admin") && py_bool (get_or geo "is_internal" (VBool false))
  then Ok (VBool true)
  else Ok (VBool false).

Definition trust_score_above (threshold : float) (env : Env) (resource : Res) : result value :=
  let score := score_of (snd env) in
  match py_float score with
  | Ok f => Ok (VBool (PrimFloat.leb threshold f))
  | Raise err => Raise err
  end.

Definition time_of_day_allowed (start_h end_h : Z) (env : Env) (resource : Res) : result value :=
  let tz := default 0 (time_zone_offset (snd env)) in
  let hour := (fst env + tz) mod 24 in
  Ok (VBool ((start_h <=? hour) && (hour <? end_h))).

(** The predicate of the rule block_low_trust, a lambda in the source. *)
Definition trust_score_below_03 (env : Env) (resource : Res) : result value :=
  match py_lt_float (score_of (snd env)) 0.3 with
  | Ok b => Ok (VBool b)
  | Raise err => Raise err
  end.

Definition block_low_trust : Rule Env Res :=
  {| name := "block_low_trust"; predicate := trust_score_below_03;
     action := "deny"; priority := 10 |}.

Definition allow_high_trust : Rule Env Res :=
  {| name := "allow_high_trust"; predicate := trust_score_above 0.8;
     action := "allow"; priority := 20 |}.

Definition working_hours_allow : Rule Env Res :=
  {| name := "working_hours_allow"; predicate := time_of_day_allowed 7 20;
     action := "allow"; priority := 50 |}.

Definition admin_internal : Rule Env Res :=
  {| name := "admin_internal"; predicate := always_allow_admin_network;
     action := "allow"; priority := 15 |}.

Definition default_rule_engine : RuleEngine Env Res :=
  let re := new_engine in
  let re := add_rule re block_low_trust in
  let re := add_rule re allow_high_trust in
  let re := add_rule re working_hours_allow in
  let re := add_rule re admin_internal in
  re.

(** The dictionary [evaluate_request] returns: the one [evaluate] returned,
    with two more keys. *)
Record RequestDecision := {
  decision_action : string;
  decision_rule : string;
  context_score : value;
  decision_resource : Res
}.

(** [evaluate_request(context, resource, engine)]: the decision, unless
    [evaluate] raised, and the context of the caller, which gets the key
    "trust_score" when it had only "score". *)
Definition evaluate_request (utc_hour : Z) (context : RequestContext) (resource : Res)
    (engine : option (RuleEngine Env Res)) : result RequestDecision * RequestContext :=
  let engine := default default_rule_engine engine in
  let context :=
    match trust_score context, score context with
    | None, Some sc =>
        {| trust_score := Some sc; score := score context;
           user_assertion := user_assertion context; geo := geo context;
           time_zone_offset := time_zone_offset context |}
    | _, _ => context
    end in
  (match evaluate engine (utc_hour, context) resource with
   | Raise err => Raise err
   | Ok decision =>
       Ok {| decision_action := verdict_action decision;
             decision_rule := verdict_rule decision;
             context_score := default (VFloat 0.0) (trust_score context);
             decision_resource := resource |}
   end, context).
End Rules.

End PolicyRules.

(** ** Notions to state the invariants of the session monitor *)

Module SessionSpec.
Import Session.

(** The bytes of a list of events, an absent count being 0. *)
Definition total_bytes (events : list SessionEvent) : Z :=
  foldr (fun e n => default 0 (bytes e) + n) 0 events.

(** No window holds more than 500 events. *)
Definition windows_bounded (m : Monitor) : Prop :=
  forall sid events, _session_events m !! sid = Some events -> (length events <= 500)%nat.

(** The operations that leave the session [sid] in place: all but a
    [create_session] for [sid] itself. *)
Definition keeps_session (sid : string) (op : Op) : Prop :=
  match op with
  | Create sid' _ => sid' <> sid
  | _ => True
  end.

(** The event has a destination that counts: present and not empty. *)
Definition destination (e : SessionEvent) : option string := Identity.truthy (dst_ip e).

(** The destinations of the events, each of them once. *)
Definition distinct_destinations (events : list SessionEvent) : list string :=
  remove_dups (omap destination events).

(** The session [s] once it was ended at the time [t]. *)
Definition ended (t : nat) (s : SessionDict) : SessionDict :=
  {| session_id := session_id s; created_at := created_at s; last_seen := last_seen s;
     context := context s; status := "ended"; cumulative_bytes := cumulative_bytes s;
     events_count := events_count s; alerts := alerts s; ended_at := Some t |}.

End SessionSpec.

(** ** Data for further examples *)

Module Samples.
Import Firewall.

(** The packet the store denies, marked malicious without a confidence. *)
Definition unrated_packet : dict := <["ai_pred" := VStr "malicious"]> udp_packet.

Definition password_user : Identity.UserAssertion :=
  {| Identity.user_id := Some "bob"%string;
     Identity.auth_method := Some "password"%string;
     Identity.mfa_ok := Some false;
     Identity.last_auth_time := Some "2025-10-28"%string;
     Identity.user_role := Some "user"%string |}.

Definition unmanaged_device : Identity.DeviceAssertion :=
  {| Identity.device_id := Some "byod"%string; Identity.os := None;
     Identity.patch_level := Some "2025-09-30"%string;
     Identity.antivirus := Some "up_to_date"%string;
     Identity.signed_by_mdm := None;
     Identity.device_presented_token := Some "secret"%string |}.

(** An environment in which no token is valid. *)
Definition invalid_hash (_ : string) : string := "9f86d081884c7d65"%string.

(** Requests with a high and with a middling score, from a user who is not
    an admin; and one with no score from an admin on the internal network. *)
Definition high_request : PolicyRules.RequestContext :=
  {| PolicyRules.trust_score := Some (VFloat 0.9%float); PolicyRules.score := None;
     PolicyRules.user_assertion := Some {[ "user_role"%string := VStr "user" ]};
     PolicyRules.geo := None; PolicyRules.time_zone_offset := None |}.

Definition middling_request : PolicyRules.RequestContext :=
  {| PolicyRules.trust_score := None; PolicyRules.score := Some (VFloat 0.5%float);
     PolicyRules.user_assertion := Some {[ "user_role"%string := VStr "user" ]};
     PolicyRules.geo := Some {[ "is_internal"%string := VBool true ]};
     PolicyRules.time_zone_offset := Some 2 |}.

Definition unscored_admin_request : PolicyRules.RequestContext :=
  {| PolicyRules.trust_score := None; PolicyRules.score := None;
     PolicyRules.user_assertion := Some {[ "user_role"%string := VStr "admin" ]};
     PolicyRules.geo := Some {[ "is_internal"%string := VBool true ]};
     PolicyRules.time_zone_offset := None |}.

(** A parser of floats that knows no string. *)
Definition no_float (_ : string) : option float := None.

(** Twenty-one events of 100 bytes, each to another host of 10.0.0.0/24. *)
Definition scan : list Session.SessionEvent :=
  (fun n : nat => Session.flow ("10.0.0." ++ pretty n) 100) <$> seq 1 21.

(** One more event, to the first of these hosts. *)
Definition revisit : Session.SessionEvent := Session.flow "10.0.0.1" 100.

(** A feed of two addresses. *)
Definition two_addresses : gmap string (list string) :=
  {[ "ips"%string := ["10.0.0.5"; "203.0.113.7"]%string ]}.

End Samples.

(** * Properties *)

(** ** Python values *)

Example py_eq_int_float : py_eq (VInt 80) (VFloat 80%float) = true.
Proof. reflexivity. Qed.

Example py_eq_str_int : py_eq (VStr "80") (VInt 80) = false.
Proof. reflexivity. Qed.

Example py_gt_one : py_gt_float (VInt 1) 0.8%float = Ok true.
Proof. reflexivity. Qed.

Example py_gt_093 : py_gt_float (VFloat 0.93%float) 0.8%float = Ok true.
Proof. reflexivity. Qed.

Example py_gt_08 : py_gt_float (VFloat 0.8%float) 0.8%float = Ok false.
Proof. reflexivity. Qed.

Example py_str_int : py_str any_repr (VInt (-12)) = "-12"%string.
Proof. reflexivity. Qed.

Example py_prefix_ascii : py_prefix 10 "2025-10-28T12:34:00Z" = "2025-10-28"%string.
Proof. reflexivity. Qed.

(** A character of two bytes counts once. *)
Example py_prefix_two_bytes :
  py_prefix 1 (String (Ascii.ascii_of_nat 195) (String (Ascii.ascii_of_nat 169) "x"))
  = String (Ascii.ascii_of_nat 195) (String (Ascii.ascii_of_nat 169) EmptyString).
Proof. reflexivity. Qed.

Lemma py_eq_str_iff (v : value) (s : string) : py_eq v (VStr s) = true <-> v = VStr s.
Proof.
  destruct v as [| b | z | f | o | t]; simpl; try (split; [discriminate | discriminate]).
  rewrite String.eqb_eq. split; [intros -> | intros [= ->]]; reflexivity.
Qed.

(** Identity adds to equality for a NaN only: what is found by identity and
    not by equality does not equal itself. *)
Lemma same_nan_not_eq (x e : value) : same_nan x e = true -> py_eq x x = false.
Proof.
  destruct x as [| | | f | o |], e as [| | | g | o' |]; simpl; try discriminate.
  - unfold PrimFloat.is_nan. intros H. apply andb_true_iff in H as [H _].
    now apply negb_true_iff in H.
  - reflexivity.
Qed.

(** A NaN object is in a list that holds it, and in no list of other NaNs. *)
Example py_in_nan :
  py_in (VNaN 1) [VStr "*"; VNaN 1] = true
  /\ py_in (VNaN 1) [VNaN 2; VFloat PrimFloat.nan] = false
  /\ py_in (VFloat PrimFloat.nan) [VFloat PrimFloat.nan] = true
  /\ py_eq (VNaN 1) (VNaN 1) = false.
Proof. repeat split; reflexivity. Qed.

Lemma py_eq_none_iff (v : value) : py_eq v VNone = true <-> v = VNone.
Proof. destruct v; simpl; split; congruence. Qed.

Lemma dict_bool_empty : dict_bool ∅ = false.
Proof. reflexivity. Qed.

Lemma dict_bool_false (d : dict) : dict_bool d = false <-> d = ∅.
Proof.
  unfold dict_bool. rewrite negb_false_iff, bool_decide_eq_true.
  apply map_size_empty_iff.
Qed.

(** ** The packet rule store *)

Module FirewallFacts.
Import Firewall.

(** The condition of [match], field by field: a field of the rule is the
    packet's, by equality or as the same NaN object, or the wildcard; the port
    of a rule also accepts every packet when it is [None] (or absent). *)
Lemma rule_matches_fields (rule packet : dict) :
  rule_matches rule packet =
    (field_accepts rule packet "src_ip" || same_nan (get rule "src_ip") (get packet "src_ip"))
    && (field_accepts rule packet "dst_ip" || same_nan (get rule "dst_ip") (get packet "dst_ip"))
    && (field_accepts rule packet "protocol"
        || same_nan (get rule "protocol") (get packet "protocol"))
    && (field_accepts rule packet "port" || same_nan (get rule "port") (get packet "port")
        || py_eq (get rule "port") VNone).
Proof.
  assert (Hstar : forall v, same_nan v (VStr "*") = false) by (intros []; reflexivity).
  assert (Hnone : forall v, same_nan v VNone = false) by (intros []; reflexivity).
  unfold rule_matches, field_accepts, py_in; simpl. rewrite !Hstar, Hnone. simpl.
  repeat match goal with
         | |- context [py_eq ?a ?b] => destruct (py_eq a b)
         | |- context [same_nan ?a ?b] => destruct (same_nan a b)
         end; reflexivity.
Qed.

(** The loop of [match] stops at the first rule that matches. *)
Lemma match_rules_Some (rs : list dict) (packet rule : dict) :
  match_rules rs packet = Some rule ->
  exists before after,
    rs = before ++ rule :: after
    /\ rule_matches rule packet = true
    /\ Forall (fun x => rule_matches x packet = false) before.
Proof.
  induction rs as [| x rs IH]; simpl; [discriminate |].
  destruct (rule_matches x packet) eqn:Hx.
  - intros [= <-]. exists [], rs. auto.
  - intros H. destruct (IH H) as (before & after & -> & Hm & Hb).
    exists (x :: before), after. auto.
Qed.

Lemma match_rules_None (rs : list dict) (packet : dict) :
  match_rules rs packet = None ->
  Forall (fun x => rule_matches x packet = false) rs.
Proof.
  induction rs as [| x rs IH]; simpl; [constructor |].
  destruct (rule_matches x packet) eqn:Hx; [discriminate | auto].
Qed.

(** C4 (as amended): [match] returns the first rule, in stored order, whose
    src_ip, dst_ip and protocol are each the wildcard, equal to the packet's
    field or the same object as the packet's field, and whose port is the
    wildcard, equal to the packet's port, the same object as it, or [None];
    it returns [None] when there is no such rule.  Being the same object adds
    to being equal for a NaN only, the one value that does not equal itself.
    [decide] returns the action of that rule ([None] when it has none), and
    "deny" when there is no such rule or the rule is the empty dictionary.
    On the empty store [decide] is "deny"; with the rule r1 alone the TCP
    packet is allowed and the UDP packet denied. *)
Theorem match_first_rule_decide (e : RuleEngine) (packet : dict) :
  let same (rule : dict) (k : string) : bool := same_nan (get rule k) (get packet k) in
  let accepts (rule : dict) : bool :=
    (field_accepts rule packet "src_ip" || same rule "src_ip")
    && (field_accepts rule packet "dst_ip" || same rule "dst_ip")
    && (field_accepts rule packet "protocol" || same rule "protocol")
    && (field_accepts rule packet "port" || same rule "port"
        || py_eq (get rule "port") VNone) in
  match match_ e packet with
  | Some rule =>
      (exists before after,
          rules e = before ++ rule :: after
          /\ accepts rule = true
          /\ Forall (fun x => accepts x = false) before)
      /\ decide e packet = (if dict_bool rule then get rule "action" else VStr "deny")
  | None =>
      Forall (fun x => accepts x = false) (rules e)
      /\ decide e packet = VStr "deny"
  end
  /\ (forall rule k, same rule k = true -> py_eq (get rule k) (get rule k) = false)
  /\ decide {| persist_path := persist_path e; rules := [] |} packet = VStr "deny"
  /\ decide (fst (add_rule r1 empty_store empty_world)) tcp_packet = VStr "allow"
  /\ decide (fst (add_rule r1 empty_store empty_world)) udp_packet = VStr "deny".
Proof.
  intros same accepts.
  assert (Hacc : forall r, accepts r = rule_matches r packet)
    by (intros r; symmetry; apply rule_matches_fields).
  split; [| split; [| split; [reflexivity | split; vm_compute; reflexivity]]].
  - unfold decide, match_.
    destruct (match_rules (rules e) packet) as [rule |] eqn:Hm.
    + split; [| reflexivity].
      destruct (match_rules_Some _ _ _ Hm) as (before & after & Hr & Hrule & Hb).
      exists before, after. rewrite Hacc. split; [assumption | split; [assumption |]].
      eapply Forall_impl; [exact Hb |]. intros x Hx. simpl in Hx. now rewrite Hacc.
    + split; [| reflexivity].
      eapply Forall_impl; [exact (match_rules_None _ _ Hm) |].
      intros x Hx. simpl in Hx. now rewrite Hacc.
  - intros rule k. apply same_nan_not_eq.
Qed.

(** A rule whose port is a NaN object matches the packet that carries the
    same object, and no packet with another NaN. *)
Example match_same_nan :
  decide nan_port_store nan_port_packet = VStr "allow"
  /\ decide nan_port_store (<["port" := VNaN 2]> tcp_packet) = VStr "deny"
  /\ decide nan_port_store tcp_packet = VStr "deny".
Proof. split; [| split]; vm_compute; reflexivity. Qed.

(** C4, as stated, fails: a rule without a port matches a packet to port 80,
    though its port is neither the wildcard nor equal to the packet's. *)
Lemma match_rule_without_port :
  spec_rule_matches any_port_rule tcp_packet = false
  /\ match_ any_port_store tcp_packet = Some any_port_rule
  /\ decide any_port_store tcp_packet = VStr "allow".
Proof. split; [| split]; vm_compute; reflexivity. Qed.

(** *** The persisted document *)

Lemma of_to_json (v : value) : of_json (to_json v) = reloaded v.
Proof. destruct v; reflexivity. Qed.

(** An object written from a dictionary reads back as that dictionary, value
    by value. *)
Lemma load_dump_dict (r : dict) :
  of_json <$> (list_to_map (reverse (map_to_list (to_json <$> r))) : gmap string json)
  = reloaded <$> r.
Proof.
  rewrite (list_to_map_proper (reverse (map_to_list (to_json <$> r)))
             (map_to_list (to_json <$> r))).
  - rewrite list_to_map_to_list, <- map_fmap_compose.
    apply map_fmap_ext. intros k v _. apply of_to_json.
  - rewrite fmap_reverse, reverse_Permutation. apply NoDup_fst_map_to_list.
  - apply reverse_Permutation.
Qed.

Lemma json_load_dump (rs : list dict) :
  json_load (json_dump rs) = map (fun r : dict => reloaded <$> r) rs.
Proof.
  unfold json_load, json_dump. rewrite map_map.
  induction rs as [| r rs IH]; simpl; [reflexivity |].
  now rewrite load_dump_dict, IH.
Qed.

(** A new engine on the path of an engine that was saved. *)
Lemma init_save (e : RuleEngine) (w : World) :
  init (persist_path e) (save e w) = reopened e.
Proof.
  unfold init, load, save, reopened; simpl.
  now rewrite lookup_insert_eq, json_load_dump.
Qed.

Lemma reloaded_id (v : value) : own_nan v = false -> reloaded v = v.
Proof. destruct v; simpl; congruence. Qed.

Lemma reloaded_dict_id (r : dict) :
  map_Forall (fun _ v => own_nan v = false) r -> reloaded <$> r = r.
Proof.
  intros Hr. rewrite <- (map_fmap_id r) at 2.
  apply map_fmap_ext. intros k v Hk. apply reloaded_id. exact (Hr k v Hk).
Qed.

(** Rules that hold no NaN object of the program come back as they were. *)
Lemma reloaded_rules_id (rs : list dict) :
  no_own_nan rs -> map (fun r : dict => reloaded <$> r) rs = rs.
Proof.
  induction 1 as [| r rs Hr _ IH]; simpl; [reflexivity |].
  now rewrite (reloaded_dict_id r Hr), IH.
Qed.

Lemma reopened_id (e : RuleEngine) : no_own_nan (rules e) -> reopened e = e.
Proof.
  destruct e as [path rs]. unfold reopened. cbn [rules persist_path].
  intros Hrs. now rewrite (reloaded_rules_id rs Hrs).
Qed.

(** A dictionary whose values are listed holds no NaN object when the list
    shows none. *)
Lemma no_own_nan_computed (r : dict) :
  forallb (fun kv => negb (own_nan kv.2)) (map_to_list r) = true ->
  map_Forall (fun _ v => own_nan v = false) r.
Proof.
  intros H. apply map_Forall_to_list. apply Forall_forall. intros [k v] Hkv.
  rewrite forallb_forall in H. apply list_elem_of_In, H in Hkv.
  now apply negb_true_iff in Hkv.
Qed.

Lemma get_reloaded (r : dict) (k : string) : get (reloaded <$> r) k = reloaded (get r k).
Proof. unfold get. rewrite lookup_fmap. now destruct (r !! k). Qed.

(** A rule whose four fields hold no NaN object of the program matches the
    same packets once it was written and read. *)
Lemma rule_matches_reloaded (r packet : dict) :
  matches_by_value r -> rule_matches (reloaded <$> r) packet = rule_matches r packet.
Proof.
  unfold matches_by_value. rewrite !Forall_cons. intros (H1 & H2 & H3 & H4 & _).
  unfold rule_matches. rewrite !get_reloaded.
  now rewrite (reloaded_id _ H1), (reloaded_id _ H2), (reloaded_id _ H3), (reloaded_id _ H4).
Qed.

Lemma match_rules_reloaded (rs : list dict) (packet : dict) :
  Forall matches_by_value rs ->
  match_rules (map (fun r : dict => reloaded <$> r) rs) packet
  = (fun r : dict => reloaded <$> r) <$> match_rules rs packet.
Proof.
  induction 1 as [| r rs Hr _ IH]; simpl; [reflexivity |].
  rewrite (rule_matches_reloaded r packet Hr).
  destruct (rule_matches r packet); [reflexivity | exact IH].
Qed.

Lemma dict_bool_reloaded (r : dict) : dict_bool (reloaded <$> r) = dict_bool r.
Proof. unfold dict_bool. now rewrite map_size_fmap. Qed.

(** C8 (as amended): saving the store and loading it back, into the same
    engine or into a new one made for the same path, gives as many rules in
    the same order, each with the keys and the values it had, but for the NaN
    objects of the program, each of which comes back as the NaN object of the
    decoder.  The rule list is the one saved when it holds no such object.
    When no rule holds one under src_ip, dst_ip, protocol or port, [match]
    finds for every packet the rule it found before, and [decide] gives the
    action it gave before (as it comes back, should the action be a NaN). *)
Theorem save_load_roundtrip (e : RuleEngine) (w : World) :
  let e' := init (persist_path e) (save e w) in
  load e (save e w) = e'
  /\ persist_path e' = persist_path e
  /\ rules e' = map (fun r : dict => reloaded <$> r) (rules e)
  /\ length (rules e') = length (rules e)
  /\ (forall (i : nat) r, rules e !! i = Some r ->
        exists r', rules e' !! i = Some r'
                   /\ dom r' = dom r
                   /\ forall k, get r' k = reloaded (get r k))
  /\ (no_own_nan (rules e) ->
        e' = e /\ forall packet : dict, decide e' packet = decide e packet)
  /\ (Forall matches_by_value (rules e) ->
        forall packet : dict,
          match_ e' packet = (fun r : dict => reloaded <$> r) <$> match_ e packet
          /\ decide e' packet = reloaded (decide e packet)).
Proof.
  intros e'. subst e'. rewrite init_save.
  split.
  { unfold load, save, reopened; simpl. now rewrite lookup_insert_eq, json_load_dump. }
  split; [reflexivity |]. split; [reflexivity |].
  split; [apply length_map |].
  split.
  { intros i r Hi. exists (reloaded <$> r). cbn [reopened rules].
    split; [| split].
    - change (map ?f ?l) with (f <$> l). rewrite list_lookup_fmap, Hi. reflexivity.
    - apply dom_fmap_L.
    - intros k. apply get_reloaded. }
  split.
  { intros Hplain. rewrite (reopened_id e Hplain). split; reflexivity. }
  intros Hfields packet.
  assert (Hmatch : match_ (reopened e) packet
                   = (fun r : dict => reloaded <$> r) <$> match_ e packet)
    by (apply match_rules_reloaded; exact Hfields).
  split; [exact Hmatch |].
  unfold decide. rewrite Hmatch.
  destruct (match_ e packet) as [r |]; cbn [fmap option_fmap option_map]; [| reflexivity].
  rewrite dict_bool_reloaded, get_reloaded.
  destruct (dict_bool r); reflexivity.
Qed.

(** C8, as stated, fails: a rule whose port is a NaN object allows the packet
    that carries this object as its port; once the store was saved and loaded
    the port of the rule is another object, the rule matches the packet no
    more and the packet is denied. *)
Lemma reload_changes_decision :
  decide nan_port_store nan_port_packet = VStr "allow"
  /\ decide (init (persist_path nan_port_store) (save nan_port_store empty_world))
            nan_port_packet = VStr "deny"
  /\ map (fun r : dict => get r "port") (rules nan_port_store) = [VNaN 1]
  /\ map (fun r : dict => get r "port")
         (rules (init (persist_path nan_port_store) (save nan_port_store empty_world)))
     = [VFloat PrimFloat.nan].
Proof. split; [| split; [| split]]; vm_compute; reflexivity. Qed.

(** The rule r1 holds no NaN: the store that holds it comes back as it was. *)
Lemma save_load_roundtrip_witness :
  no_own_nan (rules r1_store)
  /\ init (persist_path r1_store) (save r1_store empty_world) = r1_store
  /\ decide (init (persist_path r1_store) (save r1_store empty_world)) tcp_packet
     = decide r1_store tcp_packet.
Proof.
  assert (H : no_own_nan (rules r1_store))
    by (repeat constructor; apply no_own_nan_computed; vm_compute; reflexivity).
  split; [exact H |].
  destruct (save_load_roundtrip r1_store empty_world) as (_ & _ & _ & _ & _ & Hplain & _).
  destruct (Hplain H) as [He Hd]. split; [exact He | exact (Hd tcp_packet)].
Defined.

(** X5: Every [add_rule] and [remove_rule] leaves on disk what the engine
    holds: a new engine on the path holds the rules of the engine, as they are
    once written and read, and so the very rules when no NaN object is among
    their values. *)
Lemma mutations_persist (rule : dict) (rule_id : string) (e : RuleEngine) (w : World) :
  let added := add_rule rule e w in
  let removed := remove_rule rule_id e w in
  init (persist_path e) (snd added) = reopened (fst added)
  /\ init (persist_path e) (snd removed) = reopened (fst removed)
  /\ (no_own_nan (rules (fst added)) -> init (persist_path e) (snd added) = fst added)
  /\ (no_own_nan (rules (fst removed)) -> init (persist_path e) (snd removed) = fst removed).
Proof.
  intros added removed.
  assert (Ha : init (persist_path e) (snd added) = reopened (fst added))
    by exact (init_save {| persist_path := persist_path e; rules := rules e ++ [rule] |} w).
  assert (Hr : init (persist_path e) (snd removed) = reopened (fst removed))
    by exact (init_save (fst (remove_rule rule_id e w)) w).
  split; [exact Ha |]. split; [exact Hr |].
  split; intros Hplain; [rewrite Ha | rewrite Hr]; now apply reopened_id.
Qed.

(** *** The packet filter *)

(** C1 (as amended): a packet whose ai_pred is "malicious" and whose
    ai_confidence is greater than 0.8 gets the decision "block" with the
    reason "AI detected malicious", whatever the rule store holds. *)
Theorem inspect_packet_ai_block (float_repr : float -> string)
    (e : RuleEngine) (pkt : dict) :
  get pkt "ai_pred" = VStr "malicious" ->
  py_gt_float (get_or pkt "ai_confidence" (VInt 0)) 0.8%float = Ok true ->
  inspect_packet float_repr e pkt =
    Ok {| decision := Some (VStr "block");
          reason := Some "AI detected malicious"%string;
          packet := Some pkt |}.
Proof.
  intros Hpred Hconf. unfold inspect_packet.
  rewrite Hpred, Hconf. reflexivity.
Qed.

Lemma inspect_packet_ai_block_witness :
  get malicious_packet "ai_pred" = VStr "malicious"
  /\ py_gt_float (get_or malicious_packet "ai_confidence" (VInt 0)) 0.8%float = Ok true
  /\ decide r1_store malicious_packet = VStr "allow"
  /\ inspect_packet any_repr r1_store malicious_packet =
       Ok {| decision := Some (VStr "block");
             reason := Some "AI detected malicious"%string;
             packet := Some malicious_packet |}.
Proof.
  split; [vm_compute; reflexivity |].
  split; [vm_compute; reflexivity |].
  split; [vm_compute; reflexivity |].
  apply (inspect_packet_ai_block any_repr r1_store malicious_packet);
    vm_compute; reflexivity.
Defined.

(** C1, as stated, fails: the decision of the packet with ai_pred "malicious"
    and ai_confidence 0.93 is "block", it is not "deny". *)
Lemma inspect_packet_not_deny :
  verdict_of (inspect_packet any_repr r1_store malicious_packet)
    = Some (VStr "block")
  /\ verdict_of (inspect_packet any_repr r1_store malicious_packet)
    <> Some (VStr "deny").
Proof. split; [vm_compute; reflexivity | vm_compute; discriminate]. Qed.

(** Without the verdict of the model the store decides: the same packet,
    marked benign, is allowed by r1. *)
Example inspect_packet_by_rules :
  verdict_of (inspect_packet any_repr r1_store
                (<["ai_pred" := VStr "benign"]> malicious_packet))
    = Some (VStr "allow").
Proof. vm_compute. reflexivity. Qed.

(** A confidence that is not a number makes the comparison raise. *)
Example inspect_packet_raises :
  verdict_of (inspect_packet any_repr r1_store
                (<["ai_confidence" := VStr "high"]> malicious_packet))
    = None.
Proof. vm_compute. reflexivity. Qed.

(** *** The response dispatcher *)

(** C3 (as amended): on the decision "block" [respond_to_decision] appends to
    the store (and persists) one rule with the id auto_block_<ip>, the src_ip
    of the packet, the wildcard for dst_ip, protocol and port and the action
    "deny", and logs a block_ip entry and an alert; on "allow" it logs one
    allow entry and nothing else; on any other decision, "deny" among them,
    it logs one isolate_host entry and nothing else (no alert, no rule). *)
Theorem respond_to_decision_cases (float_repr : float -> string)
    (d : Decision) (e : RuleEngine) (w : World) :
  let pkt : dict := default ∅ (packet d) in
  let verdict := default VNone (decision d) in
  let e' := fst (respond_to_decision float_repr d e w) in
  let w' := snd (respond_to_decision float_repr d e w) in
  (verdict = VStr "block" ->
     (exists rule : dict,
        rules e' = rules e ++ [rule]
        /\ dom rule = list_to_set ["id"; "src_ip"; "dst_ip"; "protocol"; "port"; "action"]
        /\ get rule "id" = VStr ("auto_block_" ++ py_str float_repr (get pkt "src_ip"))
        /\ get rule "src_ip" = get pkt "src_ip"
        /\ get rule "dst_ip" = VStr "*"
        /\ get rule "protocol" = VStr "*"
        /\ get rule "port" = VStr "*"
        /\ get rule "action" = VStr "deny")
     /\ persist_path e' = persist_path e
     /\ files w' = <[persist_path e := json_dump (rules e')]> (files w)
     /\ action_log w' = action_log w ++
          [ {| timestamp := clock w; action := "block_ip";
               data := {[ "ip"%string := PScalar (get pkt "src_ip") ]} |};
            {| timestamp := S (clock w); action := "alert";
               data := <["message"%string := PScalar (VStr "Blocked malicious packet")]>
                       (<["details"%string := PDict pkt]> ∅) |} ])
  /\ (verdict = VStr "allow" ->
       e' = e /\ files w' = files w
       /\ action_log w' = action_log w ++
            [ {| timestamp := clock w; action := "allow"; data := PScalar <$> pkt |} ])
  /\ (py_eq verdict (VStr "block") = false -> py_eq verdict (VStr "allow") = false ->
       e' = e /\ files w' = files w
       /\ action_log w' = action_log w ++
            [ {| timestamp := clock w; action := "isolate_host";
                 data := {[ "host"%string := PScalar (get pkt "src_ip") ]} |} ]).
Proof.
  intros pkt verdict e' w'. subst e' w'. unfold respond_to_decision.
  fold pkt. fold verdict.
  split; [| split].
  - intros ->. simpl.
    split; [| split; [reflexivity | split; [reflexivity |]]];
      [| now rewrite <- app_assoc].
    eexists. split; [reflexivity |].
    split; [| repeat split; reflexivity].
    rewrite !dom_insert_L, dom_empty_L. simpl. reflexivity.
  - intros ->. simpl. auto.
  - intros -> ->. simpl. auto.
Qed.

(** C3, as stated, fails: on the decision "deny" no rule is inserted and no
    alert is written; the only entry logged is an isolate_host, as for any
    decision other than "block" and "allow". *)
Lemma respond_to_deny_isolates :
  rules (fst (respond_to_decision any_repr deny_decision r1_store empty_world))
    = [r1]
  /\ map action
       (action_log (snd (respond_to_decision any_repr deny_decision r1_store empty_world)))
    = ["isolate_host"%string]
  /\ map action
       (action_log (snd (respond_to_decision any_repr quarantine_decision r1_store empty_world)))
    = ["isolate_host"%string].
Proof. split; [| split]; vm_compute; reflexivity. Qed.

Example respond_to_block :
  map (fun r : dict => (get r "id", get r "src_ip", get r "action"))
    (rules (fst (respond_to_decision any_repr block_decision r1_store empty_world)))
    = [ (VStr "r1", VStr "10.0.0.5", VStr "allow");
        (VStr "auto_block_10.0.0.5", VStr "10.0.0.5", VStr "deny") ]
  /\ map action
       (action_log (snd (respond_to_decision any_repr block_decision r1_store empty_world)))
    = ["block_ip"%string; "alert"%string].
Proof. split; vm_compute; reflexivity. Qed.

End FirewallFacts.

(** ** The policy rule engine *)

Module PolicyFacts.
Import Policy.

Section Facts.
Context {Ctx Res : Type}.
Implicit Types (r x : Rule Ctx Res) (l rs : list (Rule Ctx Res)).
Implicit Types (context : Ctx) (resource : Res).

(** *** Default deny *)

Lemma evaluate_rules_none rs context resource :
  Forall (fun r => applies r context resource = Ok false) rs ->
  evaluate_rules rs context resource = Ok default_deny.
Proof.
  induction 1 as [| r rs Hr _ IH]; simpl; [reflexivity |].
  now rewrite Hr.
Qed.

Lemma applies_silenced r context resource :
  applies (silenced r) context resource = applies r context resource.
Proof.
  unfold applies, silenced; simpl.
  destruct (predicate r context resource) as [v | [class msg | class msg]]; reflexivity.
Qed.

Lemma evaluate_rules_silenced rs context resource :
  evaluate_rules (map silenced rs) context resource
  = evaluate_rules rs context resource.
Proof.
  induction rs as [| r rs IH]; simpl; [reflexivity |].
  rewrite applies_silenced, IH. reflexivity.
Qed.

(** C2 (as amended): when every predicate of the engine returns a false value
    or raises an instance of [Exception], [evaluate] returns, and what it
    returns is the action "deny" of the rule "default-deny"; a predicate that
    raises such an exception counts as one that returns [False]: replacing it
    so never changes what [evaluate] does.  An exception that is no instance
    of [Exception] is not caught: [applies] raises it, and so does [evaluate]
    when its loop comes to the rule. *)
Theorem evaluate_default_deny (e : RuleEngine Ctx Res) context resource :
  Forall (fun r => match predicate r context resource with
                   | Ok v => py_bool v = false
                   | Raise (Exception _ _) => True
                   | Raise (BaseException _ _) => False
                   end) (rules e) ->
  evaluate e context resource
    = Ok {| verdict_action := "deny"; verdict_rule := "default-deny" |}
  /\ (forall r class msg, predicate r context resource = Raise (Exception class msg) ->
        applies r context resource = Ok false)
  /\ (forall e' : RuleEngine Ctx Res,
        evaluate {| rules := map silenced (rules e') |} context resource
        = evaluate e' context resource)
  /\ (forall r class msg, predicate r context resource = Raise (BaseException class msg) ->
        applies r context resource = Raise (BaseException class msg)
        /\ forall before after,
             Forall (fun x => applies x context resource = Ok false) before ->
             evaluate {| rules := before ++ r :: after |} context resource
             = Raise (BaseException class msg)).
Proof.
  intros H. split; [| split; [| split]].
  - apply evaluate_rules_none.
    eapply Forall_impl; [exact H |].
    intros r Hr. simpl in Hr. unfold applies.
    destruct (predicate r context resource) as [v | [class msg | class msg]];
      [now rewrite Hr | reflexivity | contradiction].
  - intros r class msg Hr. unfold applies. now rewrite Hr.
  - intros e'. apply evaluate_rules_silenced.
  - intros r class msg Hr.
    assert (Happ : applies r context resource = Raise (BaseException class msg))
      by (unfold applies; now rewrite Hr).
    split; [exact Happ |].
    intros before after Hbefore. unfold evaluate. cbn [rules].
    induction Hbefore as [| x before Hx _ IH]; simpl.
    + now rewrite Happ.
    + now rewrite Hx.
Qed.

(** C2, as stated, fails: a predicate that raises [SystemExit] is not treated
    as one that does not match; [evaluate] raises. *)
Lemma evaluate_raises_exit :
  predicate exiting_rule (∅ : dict) (∅ : dict) = Raise (BaseException "SystemExit" EmptyString)
  /\ evaluate {| rules := [exiting_rule; never_rule] |} (∅ : dict) (∅ : dict)
     = Raise (BaseException "SystemExit" EmptyString)
  /\ evaluate {| rules := [never_rule; exiting_rule] |} (∅ : dict) (∅ : dict)
     <> Ok default_deny.
Proof. split; [| split]; [reflexivity | reflexivity | discriminate]. Qed.

(** *** The order of evaluation *)

Lemma insert_by_priority_Permutation r l : insert_by_priority r l ≡ₚ r :: l.
Proof.
  induction l as [| x l IH]; simpl; [reflexivity |].
  destruct (priority r <=? priority x); [reflexivity |].
  rewrite IH. apply Permutation_swap.
Qed.

Lemma sort_by_priority_Permutation l : sort_by_priority l ≡ₚ l.
Proof.
  induction l as [| x l IH]; simpl; [reflexivity |].
  now rewrite insert_by_priority_Permutation, IH.
Qed.

Lemma insert_by_priority_sorted r l :
  StronglySorted priority_le l -> StronglySorted priority_le (insert_by_priority r l).
Proof.
  induction 1 as [| x l Hl IH Hx]; simpl.
  - repeat constructor.
  - destruct (Z.leb_spec (priority r) (priority x)) as [Hle | Hgt].
    + constructor; [constructor; assumption |].
      constructor; [exact Hle |].
      eapply Forall_impl; [exact Hx |]. unfold priority_le. intros; simpl in *; lia.
    + constructor; [exact IH |].
      rewrite insert_by_priority_Permutation. constructor; [| exact Hx].
      unfold priority_le; lia.
Qed.

Lemma sort_by_priority_sorted l : StronglySorted priority_le (sort_by_priority l).
Proof.
  induction l as [| x l IH]; simpl; [constructor |].
  now apply insert_by_priority_sorted.
Qed.

(** The sort is stable: the rules of one priority keep their order. *)
Lemma insert_by_priority_stable (p : Z) r l :
  filter (fun x => priority x = p) (insert_by_priority r l)
  = filter (fun x => priority x = p) (r :: l).
Proof.
  induction l as [| x l IH]; simpl; [reflexivity |].
  destruct (Z.leb_spec (priority r) (priority x)) as [Hle | Hgt]; [reflexivity |].
  rewrite filter_cons, IH, !filter_cons.
  destruct (decide (priority x = p)), (decide (priority r = p)); try reflexivity; lia.
Qed.

Lemma sort_by_priority_stable (p : Z) l :
  filter (fun x => priority x = p) (sort_by_priority l)
  = filter (fun x => priority x = p) l.
Proof.
  induction l as [| x l IH]; simpl; [reflexivity |].
  now rewrite insert_by_priority_stable, !filter_cons, IH.
Qed.

(** Sorting leaves a sorted list as it is. *)
Lemma sort_by_priority_fixed l :
  StronglySorted priority_le l -> sort_by_priority l = l.
Proof.
  induction 1 as [| x l Hl IH Hx]; simpl; [reflexivity |].
  rewrite IH. destruct Hx as [| y l Hy _]; simpl; [reflexivity |].
  unfold priority_le in Hy.
  destruct (Z.leb_spec (priority x) (priority y)); [reflexivity | lia].
Qed.

(** The two insertions commute: a rule put first and a rule put last never
    pass each other the wrong way. *)
Lemma insert_insert_after x r l :
  insert_by_priority x (insert_after_priority r l)
  = insert_after_priority r (insert_by_priority x l).
Proof.
  induction l as [| y l IH]; simpl.
  - destruct (Z.leb_spec (priority x) (priority r)), (Z.ltb_spec (priority r) (priority x));
      (reflexivity || lia).
  - destruct (Z.leb_spec (priority x) (priority y)) as [Hxy | Hxy],
             (Z.ltb_spec (priority r) (priority y)) as [Hry | Hry]; simpl.
    + destruct (Z.leb_spec (priority x) (priority r)), (Z.ltb_spec (priority r) (priority x));
        try lia.
      * destruct (Z.ltb_spec (priority r) (priority y)); [reflexivity | lia].
      * destruct (Z.leb_spec (priority x) (priority y)); [reflexivity | lia].
    + destruct (Z.leb_spec (priority x) (priority y)); try lia.
      destruct (Z.ltb_spec (priority r) (priority x)); try lia.
      destruct (Z.ltb_spec (priority r) (priority y)); [lia | reflexivity].
    + destruct (Z.leb_spec (priority x) (priority r)); try lia.
      destruct (Z.leb_spec (priority x) (priority y)); try lia.
      destruct (Z.ltb_spec (priority r) (priority y)); [reflexivity | lia].
    + destruct (Z.leb_spec (priority x) (priority y)); try lia.
      destruct (Z.ltb_spec (priority r) (priority y)); try lia.
      now rewrite IH.
Qed.

Lemma sort_by_priority_snoc l r :
  sort_by_priority (l ++ [r]) = insert_after_priority r (sort_by_priority l).
Proof.
  induction l as [| x l IH]; simpl; [reflexivity |].
  now rewrite IH, insert_insert_after.
Qed.

(** The engine holds the rules added so far, stably sorted: re-sorting after
    every [add_rule] amounts to sorting once. *)
Lemma add_rules_sorted rs : rules (add_rules rs) = sort_by_priority rs.
Proof.
  unfold add_rules.
  induction rs as [| r rs IH] using rev_ind; [reflexivity |].
  rewrite foldl_app; simpl. rewrite IH.
  rewrite !sort_by_priority_snoc.
  now rewrite (sort_by_priority_fixed _ (sort_by_priority_sorted rs)).
Qed.

(** [evaluate] ends at the first rule of the list that applies or lets an
    exception through. *)
Lemma evaluate_rules_find rs context resource :
  evaluate_rules rs context resource =
    match List.find (stops context resource) rs with
    | Some w => outcome context resource w
    | None => Ok default_deny
    end.
Proof.
  induction rs as [| r rs IH]; simpl; [reflexivity |].
  unfold stops at 1.
  destruct (applies r context resource) as [[|] | err] eqn:Ha;
    [unfold outcome; now rewrite Ha | exact IH | unfold outcome; now rewrite Ha].
Qed.

Section First.
Variable P : Rule Ctx Res -> bool.

Lemma find_insert_skip x l :
  P x = false -> List.find P (insert_by_priority x l) = List.find P l.
Proof.
  intros Hx. induction l as [| y l IH]; simpl; [now rewrite Hx |].
  destruct (priority x <=? priority y); simpl.
  - now rewrite Hx.
  - now rewrite IH.
Qed.

Lemma find_insert_hit x l :
  StronglySorted priority_le l -> P x = true ->
  List.find P (insert_by_priority x l) =
    match List.find P l with
    | Some w => if priority x <=? priority w then Some x else Some w
    | None => Some x
    end.
Proof.
  intros Hl Hx. induction Hl as [| y l Hl IH Hy]; simpl; [now rewrite Hx |].
  destruct (Z.leb_spec (priority x) (priority y)) as [Hxy | Hxy]; simpl.
  - rewrite Hx. destruct (P y) eqn:Py.
    + destruct (Z.leb_spec (priority x) (priority y)); [reflexivity | lia].
    + destruct (List.find P l) as [w |] eqn:Hw; [| reflexivity].
      apply find_some in Hw as [Hin _].
      rewrite Forall_forall in Hy. apply list_elem_of_In, Hy in Hin.
      unfold priority_le in Hin.
      destruct (Z.leb_spec (priority x) (priority w)); [reflexivity | lia].
  - destruct (P y) eqn:Py.
    + destruct (Z.leb_spec (priority x) (priority y)); [lia | reflexivity].
    + exact IH.
Qed.

(** The first rule of the sorted list that satisfies [P] is, among the rules
    that satisfy [P], the one of least priority number and, among those, the
    one added first. *)
Lemma find_sorted_least rs :
  match List.find P (sort_by_priority rs) with
  | Some w =>
      P w = true
      /\ exists j : nat, rs !! j = Some w
           /\ forall (i : nat) r, rs !! i = Some r -> P r = true ->
                priority w < priority r \/ (priority w = priority r /\ (j <= i)%nat)
  | None => Forall (fun r => P r = false) rs
  end.
Proof.
  induction rs as [| x rs IH]; simpl; [constructor |].
  destruct (P x) eqn:Px.
  - rewrite (find_insert_hit _ _ (sort_by_priority_sorted rs) Px).
    destruct (List.find P (sort_by_priority rs)) as [w |].
    + destruct IH as (Pw & j & Hj & Hleast).
      destruct (Z.leb_spec (priority x) (priority w)) as [Hxw | Hxw].
      * split; [exact Px |]. exists 0%nat. split; [reflexivity |].
        intros [| i] r Hr Pr; simpl in Hr.
        -- injection Hr as <-. right. split; [reflexivity | lia].
        -- destruct (Hleast i r Hr Pr) as [? | [? _]]; [left; lia |].
           destruct (Z.eq_dec (priority x) (priority r)); [right; split; [assumption | lia] | left; lia].
      * split; [exact Pw |]. exists (S j). split; [exact Hj |].
        intros [| i] r Hr Pr; simpl in Hr.
        -- injection Hr as <-. left. lia.
        -- destruct (Hleast i r Hr Pr) as [? | [? ?]]; [left; lia | right; split; [assumption | lia]].
    + split; [exact Px |]. exists 0%nat. split; [reflexivity |].
      intros [| i] r Hr Pr; simpl in Hr.
      * injection Hr as <-. right. split; [reflexivity | lia].
      * rewrite Forall_forall in IH.
        apply list_elem_of_lookup_2, IH in Hr. congruence.
  - rewrite (find_insert_skip _ _ Px).
    destruct (List.find P (sort_by_priority rs)) as [w |].
    + destruct IH as (Pw & j & Hj & Hleast).
      split; [exact Pw |]. exists (S j). split; [exact Hj |].
      intros [| i] r Hr Pr; simpl in Hr.
      * injection Hr as <-. congruence.
      * destruct (Hleast i r Hr Pr) as [? | [? ?]]; [left; lia | right; split; [assumption | lia]].
    + constructor; assumption.
Qed.
End First.

(** The rule at which [evaluate] ends, when the rule added as the i-th
    applies: a rule of the sequence whose priority number is lower than that
    of the i-th rule, or equal to it with the rule added no later. *)
Lemma evaluate_first_stop rs context resource (i : nat) r :
  rs !! i = Some r ->
  applies r context resource = Ok true ->
  exists (j : nat) w,
    rs !! j = Some w
    /\ (priority w < priority r \/ (priority w = priority r /\ (j <= i)%nat))
    /\ match applies w context resource with
       | Ok b => b = true
                 /\ evaluate (add_rules rs) context resource
                    = Ok {| verdict_action := action w; verdict_rule := name w |}
       | Raise err => evaluate (add_rules rs) context resource = Raise err
       end.
Proof.
  intros Hi Hr.
  unfold evaluate. rewrite add_rules_sorted, evaluate_rules_find.
  pose proof (find_sorted_least (stops context resource) rs) as H.
  assert (Hstop : stops context resource r = true) by (unfold stops; now rewrite Hr).
  destruct (List.find _ (sort_by_priority rs)) as [w |].
  - destruct H as (Pw & j & Hj & Hleast).
    exists j, w. split; [exact Hj |]. split; [exact (Hleast i r Hi Hstop) |].
    unfold stops in Pw. unfold outcome.
    destruct (applies w context resource) as [[|] | err];
      [split; reflexivity | discriminate | reflexivity].
  - rewrite Forall_forall in H.
    apply list_elem_of_lookup_2, H in Hi. congruence.
Qed.

(** C5: after any sequence [rs] of [add_rule] calls the engine holds the
    rules added, in ascending priority order, those of equal priority in the
    order they were added; and when the rule added as the i-th applies,
    [evaluate] ends at a rule [w] of the sequence whose priority number is
    lower than that of the i-th rule, or equal to it with [w] added no later:
    [w] applies and [evaluate] returns its action and name, or [w] lets an
    exception through and [evaluate] raises it.  So when no predicate lets
    an exception through, a rule that applies wins over every rule of higher
    priority number, whichever was added first, and ties go to the rule added
    first. *)
Theorem evaluate_priority_order rs context resource (i : nat) r :
  rs !! i = Some r ->
  applies r context resource = Ok true ->
  StronglySorted priority_le (rules (add_rules rs))
  /\ rules (add_rules rs) ≡ₚ rs
  /\ (forall p : Z, filter (fun x => priority x = p) (rules (add_rules rs))
                   = filter (fun x => priority x = p) rs)
  /\ (exists (j : nat) w,
       rs !! j = Some w
       /\ (priority w < priority r \/ (priority w = priority r /\ (j <= i)%nat))
       /\ match applies w context resource with
          | Ok b => b = true
                    /\ evaluate (add_rules rs) context resource
                       = Ok {| verdict_action := action w; verdict_rule := name w |}
          | Raise err => evaluate (add_rules rs) context resource = Raise err
          end)
  /\ (Forall (fun x => forall err, applies x context resource <> Raise err) rs ->
      exists (j : nat) w,
        rs !! j = Some w
        /\ applies w context resource = Ok true
        /\ evaluate (add_rules rs) context resource
           = Ok {| verdict_action := action w; verdict_rule := name w |}
        /\ (priority w < priority r \/ (priority w = priority r /\ (j <= i)%nat))).
Proof.
  intros Hi Hr. rewrite add_rules_sorted.
  split; [apply sort_by_priority_sorted |].
  split; [apply sort_by_priority_Permutation |].
  split; [intros p; apply sort_by_priority_stable |].
  destruct (evaluate_first_stop rs context resource i r Hi Hr) as (j & w & Hj & Hle & Hw).
  split; [exists j, w; auto |].
  intros Hquiet. exists j, w.
  rewrite Forall_forall in Hquiet.
  pose proof (Hquiet w (list_elem_of_lookup_2 _ _ _ Hj)) as Hnot.
  destruct (applies w context resource) as [b | err]; [| now destruct (Hnot err)].
  destruct Hw as [-> Heval]. auto.
Qed.
End Facts.

Lemma evaluate_default_deny_witness :
  Forall (fun r : Rule dict dict =>
            match predicate r ∅ ∅ with
            | Ok v => py_bool v = false
            | Raise (Exception _ _) => True
            | Raise (BaseException _ _) => False
            end) [raising_rule; never_rule]
  /\ evaluate {| rules := [raising_rule; never_rule] |} (∅ : dict) (∅ : dict)
     = Ok {| verdict_action := "deny"; verdict_rule := "default-deny" |}.
Proof.
  assert (H : Forall (fun r : Rule dict dict =>
                        match predicate r ∅ ∅ with
                        | Ok v => py_bool v = false
                        | Raise (Exception _ _) => True
                        | Raise (BaseException _ _) => False
                        end) [raising_rule; never_rule])
    by (repeat constructor).
  split; [exact H |].
  exact (proj1 (evaluate_default_deny {| rules := [raising_rule; never_rule] |} ∅ ∅ H)).
Defined.

(** The rule added second wins when its priority number is the lower one. *)
Lemma evaluate_priority_order_witness :
  exists (j : nat) (w : Rule dict dict),
    [allow_all; deny_all] !! j = Some w
    /\ applies w (∅ : dict) (∅ : dict) = Ok true
    /\ evaluate (add_rules [allow_all; deny_all]) (∅ : dict) (∅ : dict)
       = Ok {| verdict_action := action w; verdict_rule := name w |}
    /\ (priority w < priority allow_all
        \/ (priority w = priority allow_all /\ (j <= 0)%nat)).
Proof.
  apply (evaluate_priority_order [allow_all; deny_all] ∅ ∅ 0 allow_all eq_refl eq_refl).
  repeat constructor; intros err; discriminate.
Defined.

Example evaluate_lower_number_wins :
  evaluate (add_rules [allow_all; deny_all]) (∅ : dict) (∅ : dict)
    = Ok {| verdict_action := "deny"; verdict_rule := "deny_all" |}
  /\ evaluate (add_rules [deny_all; allow_all]) (∅ : dict) (∅ : dict)
    = Ok {| verdict_action := "deny"; verdict_rule := "deny_all" |}.
Proof. split; reflexivity. Qed.

(** A rule that lets an exception through ends the evaluation where it
    stands in the order: before a rule of higher priority number, whichever
    was added first. *)
Example evaluate_exit_by_priority :
  evaluate (add_rules [allow_all; exiting_rule]) (∅ : dict) (∅ : dict)
    = Raise (BaseException "SystemExit" EmptyString)
  /\ evaluate (add_rules [deny_all; exiting_rule]) (∅ : dict) (∅ : dict)
    = Ok {| verdict_action := "deny"; verdict_rule := "deny_all" |}.
Proof. split; reflexivity. Qed.

(** The order of the rules of [default_rule_engine], added with the
    priorities 10, 20, 50 and 15. *)
Example default_rule_engine_order :
  map name (rules (add_rules [ named "block_low_trust" 10; named "allow_high_trust" 20;
                               named "working_hours_allow" 50; named "admin_internal" 15 ]))
  = ["block_low_trust"; "admin_internal"; "allow_high_trust"; "working_hours_allow"]%string.
Proof. reflexivity. Qed.

(** Rules of equal priority stay in the order they were added. *)
Example equal_priority_order :
  map name (rules (add_rules [ named "a" 5; named "b" 1; named "c" 5; named "d" 1 ]))
  = ["b"; "d"; "a"; "c"]%string.
Proof. reflexivity. Qed.

End PolicyFacts.

(** ** The trust assessor *)

Module IdentityFacts.
Import Identity.

Example best_scores :
  score (verify_device today valid_hash 1761600000 best_device) = 1%float
  /\ score (verify_user today 1761600000 best_user) = 0.9%float.
Proof. split; vm_compute; reflexivity. Qed.

(** Case analysis on every check of a verification, and membership of a
    computed score in a list of floats. *)
Ltac split_checks :=
  repeat match goal with
         | |- context [if ?c then _ else _] => destruct c
         | |- context [match ?c with Some _ => _ | None => _ end] => destruct c
         end.

Ltac in_list := vm_compute; repeat (first [left; reflexivity | right]).

Section Scores.
Variable parse_date : string -> option float.
Variable sha256_hex : string -> string.
Variable float_repr : float -> string.

Lemma verify_device_score (now : float) (d : DeviceAssertion) :
  In (score (verify_device parse_date sha256_hex now d)) device_scores.
Proof.
  unfold verify_device. split_checks; in_list.
Qed.

Lemma verify_user_score (now : float) (u : UserAssertion) :
  In (score (verify_user parse_date now u)) user_scores.
Proof.
  unfold verify_user. split_checks; in_list.
Qed.

(** Both scores lie between 0 and 1. *)
Lemma verify_device_clamped (now : float) (d : DeviceAssertion) :
  PrimFloat.leb 0 (score (verify_device parse_date sha256_hex now d)) = true
  /\ PrimFloat.leb (score (verify_device parse_date sha256_hex now d)) 1 = true.
Proof.
  assert (H : forallb (fun x => PrimFloat.leb 0 x && PrimFloat.leb x 1) device_scores = true)
    by (vm_compute; reflexivity).
  rewrite forallb_forall in H.
  specialize (H _ (verify_device_score now d)).
  now apply andb_true_iff in H.
Qed.

Lemma verify_user_clamped (now : float) (u : UserAssertion) :
  PrimFloat.leb 0 (score (verify_user parse_date now u)) = true
  /\ PrimFloat.leb (score (verify_user parse_date now u)) 1 = true.
Proof.
  assert (H : forallb (fun x => PrimFloat.leb 0 x && PrimFloat.leb x 1) user_scores = true)
    by (vm_compute; reflexivity).
  rewrite forallb_forall in H.
  specialize (H _ (verify_user_score now u)).
  now apply andb_true_iff in H.
Qed.

(** With the penalty of a blocked country no pair of scores reaches 0.65: the
    combined score is at most 0.6. *)
Lemma blocked_score_below (d u : float) :
  In d device_scores -> In u user_scores ->
  PrimFloat.leb 0.65 (blocked_score d u) = false
  /\ PrimFloat.leb (blocked_score d u) 0.6 = true.
Proof.
  intros Hd Hu.
  assert (H : forallb (fun d => forallb (fun u =>
                negb (PrimFloat.leb 0.65 (blocked_score d u))
                && PrimFloat.leb (blocked_score d u) 0.6) user_scores) device_scores = true)
    by (vm_compute; reflexivity).
  rewrite forallb_forall in H. specialize (H d Hd).
  rewrite forallb_forall in H. specialize (H u Hu).
  apply andb_true_iff in H as [H1 H2].
  apply negb_true_iff in H1. split; assumption.
Qed.

Lemma dict_bool_lookup (g : dict) (k : string) (v : value) :
  g !! k = Some v -> dict_bool g = true.
Proof.
  intros Hk. destruct (dict_bool g) eqn:Hg; [reflexivity |].
  apply dict_bool_false in Hg. subst g. now rewrite lookup_empty in Hk.
Qed.

(** C6: when the country of the geo attributes is in the blocked countries of
    the context, [verify_context] returns allow = false, whatever the device
    and user assertions (and the dates and the clock) are: the combined score
    is then at most 0.6, the value 0.6 * 1 + 0.4 * 1 - 0.4 it has for two
    maximal scores, and 0.6 is below the threshold 0.65. *)
Theorem verify_context_blocked (now_device now_user : float) (context : Context)
    (g : dict) (country : value) (blocked : list value) :
  geo context = Some g ->
  g !! "country" = Some country ->
  blocked_countries context = Some blocked ->
  py_in country blocked = true ->
  allow (verify_context parse_date sha256_hex float_repr now_device now_user context) = false
  /\ PrimFloat.leb
       (ctx_score (verify_context parse_date sha256_hex float_repr now_device now_user context))
       0.6 = true
  /\ (0.6 * 1 + 0.4 * 1 - 0.4 = 0.6)%float
  /\ PrimFloat.ltb 0.6 0.65 = true.
Proof.
  intros Hgeo Hcountry Hblocked Hin.
  unfold verify_context.
  rewrite Hgeo, Hblocked, (dict_bool_lookup _ _ _ Hcountry). simpl.
  unfold get. rewrite Hcountry. simpl. rewrite Hin. simpl.
  pose proof (blocked_score_below _ _
                (verify_device_score now_device (default no_device (device_assertion context)))
                (verify_user_score now_user (default no_user (user_assertion context))))
    as [H1 H2].
  unfold blocked_score in H1, H2.
  split; [exact H1 | split; [exact H2 | split; reflexivity]].
Qed.
End Scores.

Lemma verify_context_blocked_witness :
  geo blocked_context = Some {[ "country"%string := VStr "KP" ]}
  /\ py_in (VStr "KP") [VStr "KP"; VStr "IR"] = true
  /\ score (verify_device today valid_hash 1761600000 best_device) = 1%float
  /\ allow (verify_context today valid_hash any_repr
              1761600000 1761600000 blocked_context) = false.
Proof.
  split; [reflexivity |]. split; [reflexivity |]. split; [vm_compute; reflexivity |].
  exact (proj1 (verify_context_blocked today valid_hash any_repr
                  1761600000 1761600000 blocked_context
                  {[ "country"%string := VStr "KP" ]} (VStr "KP") [VStr "KP"; VStr "IR"]
                  eq_refl eq_refl eq_refl eq_refl)).
Defined.

(** The same assertions from a country that is not blocked are allowed. *)
Example verify_context_open :
  allow (verify_context today valid_hash any_repr
           1761600000 1761600000 open_context) = true.
Proof. vm_compute. reflexivity. Qed.

End IdentityFacts.

(** ** The session monitor *)

Module SessionFacts.
Import Session.

Example alerted_monitor_session : _sessions alerted_monitor !! "s1"%string = Some alerted_session.
Proof. vm_compute. reflexivity. Qed.

(** *** One [update_session] *)

(** The dictionary returned is the one stored. *)
Lemma update_session_stored (sid : string) (ev : SessionEvent) (m : Monitor) :
  _sessions (fst (update_session sid ev m)) !! sid = Some (snd (update_session sid ev m)).
Proof.
  unfold update_session.
  destruct (_sessions m !! sid) as [s |]; simpl;
    repeat match goal with
           | |- context [if ?c then _ else _] => destruct c
           end; simpl; apply lookup_insert_eq.
Qed.

Lemma update_session_other (sid sid' : string) (ev : SessionEvent) (m : Monitor) :
  sid <> sid' ->
  _sessions (fst (update_session sid ev m)) !! sid' = _sessions m !! sid'.
Proof.
  intros Hne. unfold update_session.
  destruct (_sessions m !! sid) as [s |]; simpl;
    repeat match goal with
           | |- context [if ?c then _ else _] => destruct c
           end; simpl; now rewrite !lookup_insert_ne.
Qed.

(** What an update does to an existing session: the counter grows by the
    bytes of the event; when it then exceeds 100 MiB the status becomes
    "suspicious" and one alert tagged "high_data_transfer" is appended, and
    otherwise the alerts with that tag are as before. *)
Lemma update_session_existing (sid : string) (ev : SessionEvent) (m : Monitor) (s : SessionDict) :
  _sessions m !! sid = Some s ->
  let s' := snd (update_session sid ev m) in
  cumulative_bytes s' = cumulative_bytes s + default 0 (bytes ev)
  /\ if 100 * 1024 * 1024 <? cumulative_bytes s'
     then status s' = "suspicious"%string
          /\ exists a, reason a = "high_data_transfer"%string
               /\ alerts_tagged "high_data_transfer" s'
                  = alerts_tagged "high_data_transfer" s ++ [a]
     else alerts_tagged "high_data_transfer" s' = alerts_tagged "high_data_transfer" s.
Proof.
  intros Hs. unfold update_session. rewrite Hs. cbv zeta. cbn [cumulative_bytes].
  destruct (100 * 1024 * 1024 <? cumulative_bytes s + default 0 (bytes ev)) eqn:Hbig;
    destruct (20 <? _)%nat;
    cbn [snd cumulative_bytes append_alert set_status status]; rewrite ?Hbig;
    (split; [reflexivity |]); unfold alerts_tagged;
    cbn [alerts append_alert set_status default from_option id];
    rewrite ?filter_app, ?filter_cons, ?filter_nil; cbn [reason];
    repeat match goal with
           | |- context [decide (?a = ?b)] =>
               destruct (decide (a = b)); try discriminate; try congruence
           end;
    rewrite ?app_nil_r; try reflexivity;
    (split; [reflexivity |]; eexists; split; [| reflexivity]; reflexivity).
Qed.

(** An update of a session that does not exist creates it first. *)
Lemma update_session_auto_create (sid : string) (ev : SessionEvent) (m : Monitor) :
  _sessions m !! sid = None ->
  update_session sid ev m = update_session sid ev (fst (create_session sid ∅ m)).
Proof.
  intros Hs. unfold update_session at 2. cbn [create_session fst _sessions].
  rewrite lookup_insert_eq. unfold update_session. rewrite Hs. reflexivity.
Qed.

(** *** Data transfer *)

Lemma run_cons (m : Monitor) (op : Op) (ops : list Op) :
  run m (op :: ops) = run (step m op) ops.
Proof. reflexivity. Qed.

Lemma run_app (m : Monitor) (ops1 ops2 : list Op) :
  run m (ops1 ++ ops2) = run (run m ops1) ops2.
Proof. apply foldl_app. Qed.

(** After [n] events of one MiB the counter has grown by [n] MiB, and as long
    as it does not exceed 100 MiB no high_data_transfer alert has been added. *)
Lemma updates_of_one_MiB (sid : string) (evs : list SessionEvent) :
  forall (m : Monitor) (s : SessionDict),
    _sessions m !! sid = Some s ->
    Forall (fun e => bytes e = Some 1048576) evs ->
    exists s',
      _sessions (run m (Update sid <$> evs)) !! sid = Some s'
      /\ cumulative_bytes s' = cumulative_bytes s + Z.of_nat (length evs) * 1048576
      /\ (cumulative_bytes s' <= 100 * 1024 * 1024 ->
          alerts_tagged "high_data_transfer" s' = alerts_tagged "high_data_transfer" s).
Proof.
  induction evs as [| ev evs IH]; intros m s Hs Hevs.
  - exists s. simpl. split; [exact Hs | split; [lia | reflexivity]].
  - apply Forall_cons in Hevs as [Hev Hevs].
    rewrite fmap_cons, run_cons. cbn [step].
    pose proof (update_session_stored sid ev m) as Hstored.
    pose proof (update_session_existing sid ev m s Hs) as [Hcount Halerts].
    cbv zeta in Hcount, Halerts.
    rewrite Hev in Hcount. cbn [default from_option id] in Hcount.
    destruct (IH _ _ Hstored Hevs) as (s' & Hs' & Hcount' & Halerts').
    exists s'. split; [exact Hs' |]. split.
    + rewrite Hcount', Hcount. cbn [length]. lia.
    + intros Hsmall. rewrite (Halerts' Hsmall).
      destruct (Z.ltb_spec (100 * 1024 * 1024) (cumulative_bytes (snd (update_session sid ev m))));
        [lia | exact Halerts].
Qed.

(** C7: from a session just created, after 101 events of 1,048,576 bytes the
    counter is 101 MiB, which exceeds 100 MiB, the status is "suspicious" and
    the alerts hold one tagged "high_data_transfer"; after the first 100 of
    them the counter is exactly 100 MiB and no alert has that tag. *)
Theorem hundred_and_one_MiB (m : Monitor) (sid : string) (ctx : dict)
    (evs : list SessionEvent) :
  length evs = 101%nat ->
  Forall (fun e => bytes e = Some 1048576) evs ->
  let fresh := fst (create_session sid ctx m) in
  exists s100 s101,
    _sessions (run fresh (Update sid <$> take 100 evs)) !! sid = Some s100
    /\ _sessions (run fresh (Update sid <$> evs)) !! sid = Some s101
    /\ cumulative_bytes s100 = 100 * 1024 * 1024
    /\ alerts_tagged "high_data_transfer" s100 = []
    /\ cumulative_bytes s101 = 101 * 1048576
    /\ 100 * 1024 * 1024 < cumulative_bytes s101
    /\ status s101 = "suspicious"%string
    /\ exists a, a ∈ default [] (alerts s101) /\ reason a = "high_data_transfer"%string.
Proof.
  intros Hlen Hevs fresh.
  assert (Hsplit : exists ev, evs = take 100 evs ++ [ev]).
  { pose proof (take_drop 100 evs) as Htd.
    assert (Hd : length (drop 100 evs) = 1%nat) by (rewrite length_drop; lia).
    destruct (drop 100 evs) as [| ev [| ? ?]]; try discriminate. now exists ev. }
  destruct Hsplit as [ev Hsplit].
  assert (Hlen100 : length (take 100 evs) = 100%nat) by (rewrite length_take; lia).
  rewrite Hsplit in Hevs. apply Forall_app in Hevs as [Hevs Hev].
  apply Forall_cons in Hev as [Hev _].
  assert (Hfresh : _sessions fresh !! sid =
                   Some {| session_id := sid; created_at := clock m; last_seen := S (clock m);
                           context := ctx; status := "active"; cumulative_bytes := 0;
                           events_count := 0; alerts := None; ended_at := None |})
    by apply lookup_insert_eq.
  destruct (updates_of_one_MiB sid _ _ _ Hfresh Hevs) as (s100 & Hs100 & Hcount & Halerts).
  rewrite Hlen100 in Hcount. cbn [cumulative_bytes] in Hcount.
  specialize (Halerts ltac:(lia)).
  exists s100, (snd (update_session sid ev (run fresh (Update sid <$> take 100 evs)))).
  split; [exact Hs100 |]. split.
  { rewrite Hsplit at 1. rewrite fmap_app, run_app. apply update_session_stored. }
  pose proof (update_session_existing sid ev _ s100 Hs100) as [Hcount' Halerts'].
  cbv zeta in Hcount', Halerts'.
  rewrite Hev in Hcount'. cbn [default from_option id] in Hcount'.
  destruct (Z.ltb_spec (100 * 1024 * 1024)
              (cumulative_bytes (snd (update_session sid ev (run fresh (Update sid <$> take 100 evs))))));
    [| lia].
  destruct Halerts' as (Hstatus & a & Ha & Htagged).
  split; [lia |]. split; [exact Halerts |]. split; [lia |]. split; [lia |].
  split; [exact Hstatus |].
  exists a. split; [| exact Ha].
  assert (Hin : a ∈ alerts_tagged "high_data_transfer"
                      (snd (update_session sid ev (run fresh (Update sid <$> take 100 evs)))))
    by (rewrite Htagged; apply elem_of_app; right; apply list_elem_of_singleton; reflexivity).
  unfold alerts_tagged in Hin. apply list_elem_of_filter in Hin as [_ Hin]. exact Hin.
Qed.

Lemma hundred_and_one_MiB_witness :
  length (replicate 101 (flow "8.8.8.8" 1048576)) = 101%nat
  /\ exists s100 s101,
      _sessions (run fresh_monitor
                   (Update "s1" <$> take 100 (replicate 101 (flow "8.8.8.8" 1048576)))) !! "s1"%string
        = Some s100
      /\ _sessions (run fresh_monitor
                      (Update "s1" <$> replicate 101 (flow "8.8.8.8" 1048576))) !! "s1"%string
        = Some s101
      /\ cumulative_bytes s100 = 100 * 1024 * 1024
      /\ alerts_tagged "high_data_transfer" s100 = []
      /\ cumulative_bytes s101 = 101 * 1048576
      /\ 100 * 1024 * 1024 < cumulative_bytes s101
      /\ status s101 = "suspicious"%string
      /\ exists a, a ∈ default [] (alerts s101) /\ reason a = "high_data_transfer"%string.
Proof.
  split; [reflexivity |].
  apply (hundred_and_one_MiB initial "s1" ∅ (replicate 101 (flow "8.8.8.8" 1048576))).
  - reflexivity.
  - simpl. repeat constructor.
Defined.

(** *** The counter *)

(** One operation that keeps the counter leaves the session in place with a
    counter that is not lower. *)
Lemma step_keeps_counter (sid : string) (m : Monitor) (op : Op) (s : SessionDict) :
  _sessions m !! sid = Some s ->
  keeps_counter sid op ->
  exists s', _sessions (step m op) !! sid = Some s'
             /\ cumulative_bytes s <= cumulative_bytes s'.
Proof.
  intros Hs Hop. destruct op as [sid' ctx | sid' ev | sid' | sid']; cbn [step keeps_counter] in *.
  - exists s. split; [| lia]. cbn [create_session fst _sessions].
    now rewrite lookup_insert_ne.
  - destruct (decide (sid' = sid)) as [-> | Hne].
    + destruct Hop as [? | Hbytes]; [congruence |].
      exists (snd (update_session sid ev m)).
      split; [apply update_session_stored |].
      pose proof (update_session_existing sid ev m s Hs) as [Hcount _].
      cbv zeta in Hcount. lia.
    + exists s. split; [| lia]. now rewrite update_session_other.
  - unfold check_session.
    destruct (decide (sid' = sid)) as [-> | Hne].
    + rewrite Hs. destruct (2 <=? _)%nat; cbn [fst _sessions].
      * eexists. split; [apply lookup_insert_eq |]. cbn [set_status cumulative_bytes]. lia.
      * exists s. split; [exact Hs | lia].
    + exists s. split; [| lia].
      destruct (_sessions m !! sid') as [s0 |]; [| exact Hs].
      destruct (2 <=? _)%nat; cbn [fst _sessions]; [| exact Hs].
      now rewrite lookup_insert_ne.
  - unfold end_session.
    destruct (decide (sid' = sid)) as [-> | Hne].
    + rewrite Hs. cbn [_sessions]. eexists. split; [apply lookup_insert_eq |].
      cbn [cumulative_bytes]. lia.
    + exists s. split; [| lia].
      destruct (_sessions m !! sid') as [s0 |]; [| exact Hs].
      cbn [_sessions]. now rewrite lookup_insert_ne.
Qed.

(** C9 (as amended): over every sequence of operations of the monitor none of
    which creates the session anew or updates it with a negative byte count,
    the session stays and its cumulative byte counter never decreases, from
    one operation to the next and so from any state to any later one; events
    without a byte count, operations on other sessions, [check_session] and
    [end_session] included. *)
Theorem counter_never_decreases (sid : string) (ops : list Op) :
  forall (m : Monitor) (s : SessionDict),
    _sessions m !! sid = Some s ->
    Forall (keeps_counter sid) ops ->
    exists s', _sessions (run m ops) !! sid = Some s'
               /\ cumulative_bytes s <= cumulative_bytes s'.
Proof.
  induction ops as [| op ops IH]; intros m s Hs Hops.
  - exists s. split; [exact Hs | lia].
  - apply Forall_cons in Hops as [Hop Hops].
    destruct (step_keeps_counter sid m op s Hs Hop) as (s1 & Hs1 & Hle1).
    destruct (IH _ _ Hs1 Hops) as (s' & Hs' & Hle').
    exists s'. split; [exact Hs' | lia].
Qed.

Lemma counter_never_decreases_witness :
  exists s', _sessions (run fresh_monitor
                          [ Update "s1" (flow "8.8.8.8" 10); Update "s1" probe;
                            Update "s2" (flow "8.8.8.8" (-5)); Check "s1"; End_ "s1";
                            Update "s1" (flow "1.1.1.1" 7) ]) !! "s1"%string = Some s'
             /\ 0 <= cumulative_bytes s'.
Proof.
  apply (counter_never_decreases "s1"
           [ Update "s1" (flow "8.8.8.8" 10); Update "s1" probe;
             Update "s2" (flow "8.8.8.8" (-5)); Check "s1"; End_ "s1";
             Update "s1" (flow "1.1.1.1" 7) ]
           fresh_monitor
           {| session_id := "s1"; created_at := 0; last_seen := 1; context := ∅;
              status := "active"; cumulative_bytes := 0; events_count := 0;
              alerts := None; ended_at := None |}).
  - vm_compute. reflexivity.
  - repeat (apply Forall_cons; split;
            [cbn; first [exact I | right; lia | left; discriminate] |]).
    constructor.
Defined.

(** C9, as stated, fails: an event with a negative byte count lowers the
    counter. *)
Lemma negative_bytes_lower_counter :
  counter (run fresh_monitor [Update "s1" (flow "8.8.8.8" 10)]) "s1" = Some 10
  /\ counter (run fresh_monitor [Update "s1" (flow "8.8.8.8" 10);
                                 Update "s1" (flow "8.8.8.8" (-5))]) "s1" = Some 5.
Proof. split; vm_compute; reflexivity. Qed.

(** Creating the session again puts its counter back to zero; ending it does
    not. *)
Example create_session_resets_counter :
  counter (run fresh_monitor [Update "s1" (flow "8.8.8.8" 10); Create "s1" ∅]) "s1" = Some 0
  /\ counter (run fresh_monitor [Update "s1" (flow "8.8.8.8" 10); End_ "s1"]) "s1" = Some 10.
Proof. split; vm_compute; reflexivity. Qed.

(** *** Ending a session *)

(** X26: [end_session] on an absent session does nothing.  On a session that
    exists it sets the status "ended" and the end time and nothing else; a
    second [end_session] leaves the status "ended" and moves the end time to
    its own reading of the clock; the other sessions and the windows are
    untouched by both. *)
Lemma end_session_twice (sid : string) (m : Monitor) :
  (_sessions m !! sid = None -> end_session sid m = m)
  /\ (forall s, _sessions m !! sid = Some s ->
        let once := end_session sid m in
        let twice := end_session sid once in
        _sessions once !! sid = Some (SessionSpec.ended (clock m) s)
        /\ status <$> _sessions once !! sid = Some "ended"%string
        /\ _sessions twice !! sid = Some (SessionSpec.ended (S (clock m)) s)
        /\ status <$> _sessions twice !! sid = Some "ended"%string
        /\ (forall sid', sid' <> sid ->
              _sessions once !! sid' = _sessions m !! sid'
              /\ _sessions twice !! sid' = _sessions m !! sid')
        /\ _session_events once = _session_events m
        /\ _session_events twice = _session_events m).
Proof.
  split.
  { intros Hs. unfold end_session. rewrite Hs. reflexivity. }
  intros s Hs once twice.
  assert (H1 : once = {| _sessions := <[sid := SessionSpec.ended (clock m) s]> (_sessions m);
                         _session_events := _session_events m;
                         clock := S (clock m) |}).
  { subst once. unfold end_session. rewrite Hs. reflexivity. }
  assert (H2 : twice = {| _sessions := <[sid := SessionSpec.ended (S (clock m)) s]> (_sessions m);
                          _session_events := _session_events m;
                          clock := S (S (clock m)) |}).
  { subst twice. rewrite H1. unfold end_session. cbn [_sessions _session_events clock].
    rewrite lookup_insert_eq. unfold SessionSpec.ended.
    cbn [session_id created_at last_seen context cumulative_bytes events_count alerts].
    now rewrite insert_insert_eq. }
  rewrite H1, H2. cbn [_sessions _session_events].
  rewrite !lookup_insert_eq.
  split; [reflexivity |]. split; [reflexivity |].
  split; [reflexivity |]. split; [reflexivity |].
  split; [| split; reflexivity].
  intros sid' Hne. now rewrite !lookup_insert_ne by congruence.
Qed.

Lemma end_session_twice_witness :
  end_session "s2" fresh_monitor = fresh_monitor
  /\ status <$> _sessions (end_session "s1" (end_session "s1" fresh_monitor)) !! "s1"%string
     = Some "ended"%string
  /\ ended_at <$> _sessions (end_session "s1" (end_session "s1" fresh_monitor)) !! "s1"%string
     = Some (Some 3%nat).
Proof.
  destruct (end_session_twice "s2" fresh_monitor) as [Habsent _].
  destruct (end_session_twice "s1" fresh_monitor) as [_ Hpresent].
  split; [apply Habsent; vm_compute; reflexivity |].
  assert (Hs : _sessions fresh_monitor !! "s1"%string
               = Some {| session_id := "s1"; created_at := 0; last_seen := 1; context := ∅;
                         status := "active"; cumulative_bytes := 0; events_count := 0;
                         alerts := None; ended_at := None |})
    by (vm_compute; reflexivity).
  destruct (Hpresent _ Hs) as (_ & _ & Htwice & Hstatus & _).
  split; [exact Hstatus |]. now rewrite Htwice.
Defined.

(** *** Escalation *)

(** C10: for a session that exists and carries two alerts or more,
    [check_session] stores and returns it with the status "quarantined",
    whatever its status was; so after [end_session] has set the status
    "ended", a [check_session] reports and stores "quarantined". *)
Theorem check_session_quarantines (sid : string) (m : Monitor) (s : SessionDict) :
  _sessions m !! sid = Some s ->
  (2 <= length (default [] (alerts s)))%nat ->
  snd (check_session sid m) = Found (set_status "quarantined" s)
  /\ report_status (snd (check_session sid m)) = "quarantined"%string
  /\ status <$> _sessions (fst (check_session sid m)) !! sid = Some "quarantined"%string
  /\ status <$> _sessions (end_session sid m) !! sid = Some "ended"%string
  /\ report_status (snd (check_session sid (end_session sid m))) = "quarantined"%string
  /\ status <$> _sessions (fst (check_session sid (end_session sid m))) !! sid
     = Some "quarantined"%string.
Proof.
  intros Hs Hlen. apply Nat.leb_le in Hlen.
  assert (Hcheck : forall m' s', _sessions m' !! sid = Some s' -> alerts s' = alerts s ->
            check_session sid m'
            = ({| _sessions := <[sid := set_status "quarantined" s']> (_sessions m');
                  _session_events := _session_events m';
                  clock := clock m' |}, Found (set_status "quarantined" s'))).
  { intros m' s' Hs' Ha. unfold check_session. now rewrite Hs', Ha, Hlen. }
  rewrite (Hcheck m s Hs eq_refl). cbn [fst snd report_status _sessions].
  rewrite lookup_insert_eq. cbn [fmap option_fmap option_map set_status status].
  split; [reflexivity |]. split; [reflexivity |]. split; [reflexivity |].
  assert (Hended : exists s', _sessions (end_session sid m) !! sid = Some s'
                              /\ alerts s' = alerts s /\ status s' = "ended"%string).
  { unfold end_session. rewrite Hs. cbn [_sessions]. eexists.
    split; [apply lookup_insert_eq |]. split; reflexivity. }
  destruct Hended as (s' & Hs' & Ha & Hst).
  rewrite (Hcheck _ s' Hs' Ha). cbn [fst snd report_status _sessions].
  rewrite Hs', lookup_insert_eq. cbn [fmap option_fmap option_map set_status status].
  rewrite Hst. auto.
Qed.

Lemma check_session_quarantines_witness :
  _sessions alerted_monitor !! "s1"%string = Some alerted_session
  /\ status alerted_session = "suspicious"%string
  /\ report_status (snd (check_session "s1" (end_session "s1" alerted_monitor)))
     = "quarantined"%string.
Proof.
  assert (Hs : _sessions alerted_monitor !! "s1"%string = Some alerted_session)
    by (vm_compute; reflexivity).
  split; [exact Hs |]. split; [reflexivity |].
  assert (Hlen : (2 <= length (default [] (alerts alerted_session)))%nat) by (simpl; lia).
  exact (proj1 (proj2 (proj2 (proj2 (proj2
           (check_session_quarantines "s1" alerted_monitor alerted_session Hs Hlen)))))).
Defined.

End SessionFacts.

(** * Further properties of the code *)

(** ** The rule store beyond [match] and [decide] *)

Module StoreFacts.
Import Firewall.

(** *** remove_rule *)

(** X1: [remove_rule] drops every rule with the id, the duplicates too, keeps the
    other rules in their order, and changes nothing when it is repeated or when
    no rule has the id. *)
Theorem remove_rule_all (rule_id : string) (e : RuleEngine) (w : World) :
  let e' := fst (remove_rule rule_id e w) in
  Forall (fun r => py_eq (get r "id") (VStr rule_id) = false) (rules e')
  /\ rules e' `sublist_of` rules e
  /\ (forall r, r ∈ rules e -> py_eq (get r "id") (VStr rule_id) = false -> r ∈ rules e')
  /\ fst (remove_rule rule_id e' (snd (remove_rule rule_id e w))) = e'
  /\ (Forall (fun r => py_eq (get r "id") (VStr rule_id) = false) (rules e) -> e' = e).
Proof.
  intros e'. subst e'. unfold remove_rule. cbn [fst snd rules persist_path].
  split; [| split; [| split; [| split]]].
  - apply Forall_forall. intros r Hr.
    apply list_elem_of_filter in Hr as [Hr _]. now apply negb_true_iff in Hr.
  - apply sublist_filter.
  - intros r Hr Hid. apply list_elem_of_filter. split; [| exact Hr]. now rewrite Hid.
  - f_equal. rewrite list_filter_filter. apply list_filter_iff. tauto.
  - intros Hall. destruct e as [path rs]. cbn [rules persist_path] in *. f_equal.
    induction Hall as [| r rs Hr _ IH]; [reflexivity |].
    rewrite filter_cons, IH. rewrite Hr. reflexivity.
Qed.

(** *** add_rule *)

Lemma match_rules_app (rs1 rs2 : list dict) (packet : dict) :
  match_rules (rs1 ++ rs2) packet =
    match match_rules rs1 packet with
    | Some rule => Some rule
    | None => match_rules rs2 packet
    end.
Proof.
  induction rs1 as [| r rs1 IH]; simpl; [reflexivity |].
  destruct (rule_matches r packet); [reflexivity | exact IH].
Qed.

(** X2: A rule added later never takes a packet from a rule that was there: the
    match of a packet that matched stays, and the new rule is consulted only
    for the packets no older rule matches. *)
Theorem add_rule_keeps_matches (rule : dict) (e : RuleEngine) (w : World) (packet : dict) :
  match_ (fst (add_rule rule e w)) packet =
    match match_ e packet with
    | Some older => Some older
    | None => if rule_matches rule packet then Some rule else None
    end.
Proof.
  unfold match_, add_rule. cbn [fst rules]. rewrite match_rules_app. simpl.
  destruct (match_rules (rules e) packet); [reflexivity |].
  destruct (rule_matches rule packet); reflexivity.
Qed.

(** Appending a rule whose action is "deny" changes no decision: where it is
    reached the decision was "deny" already. *)
Lemma add_deny_rule_decide (rule : dict) (e : RuleEngine) (w : World) (packet : dict) :
  get rule "action" = VStr "deny" ->
  decide (fst (add_rule rule e w)) packet = decide e packet.
Proof.
  intros Hdeny. unfold decide, match_, add_rule. cbn [fst rules].
  rewrite match_rules_app. cbn [match_rules].
  destruct (match_rules (rules e) packet) as [older |]; [reflexivity |].
  destruct (rule_matches rule packet); [| reflexivity].
  rewrite Hdeny. now destruct (dict_bool rule).
Qed.

(** *** Two engines on one file *)

(** X6: The file holds what the engine that saved last held: when two engines
    share a path, a rule added through the first is gone from the file once
    the second adds one; a new engine on the path holds the rules of the
    second, as they are once written and read. *)
Theorem last_writer_wins (e1 e2 : RuleEngine) (a b : dict) (w : World) :
  persist_path e1 = persist_path e2 ->
  let w' := snd (add_rule b e2 (snd (add_rule a e1 w))) in
  rules (init (persist_path e1) w') = map (fun r : dict => reloaded <$> r) (rules e2 ++ [b])
  /\ (no_own_nan (rules e2 ++ [b]) -> rules (init (persist_path e1) w') = rules e2 ++ [b]).
Proof.
  intros Hpath w'.
  assert (H : rules (init (persist_path e1) w')
              = map (fun r : dict => reloaded <$> r) (rules e2 ++ [b])).
  { subst w'. unfold init, load, add_rule, save. cbn [fst snd files persist_path rules].
    rewrite Hpath, lookup_insert_eq. cbn [rules]. apply FirewallFacts.json_load_dump. }
  split; [exact H |].
  intros Hplain. rewrite H. now apply FirewallFacts.reloaded_rules_id.
Qed.

Lemma last_writer_wins_witness :
  persist_path r1_store = persist_path empty_store
  /\ rules (init (persist_path r1_store)
             (snd (add_rule any_port_rule empty_store
                     (snd (add_rule any_port_rule r1_store empty_world)))))
     = [any_port_rule].
Proof.
  split; [reflexivity |].
  apply (proj2 (last_writer_wins r1_store empty_store any_port_rule any_port_rule
                  empty_world eq_refl)).
  repeat constructor. apply FirewallFacts.no_own_nan_computed. vm_compute. reflexivity.
Defined.

End StoreFacts.

(** ** The packet filter, the responses, the feed and the firewall as a whole *)

Module ResponseFacts.
Import Firewall.

Section Facts.
Variable float_repr : float -> string.

(** *** inspect_packet *)

(** The decision returned holds the packet that was inspected. *)
Lemma inspect_packet_packet (e : RuleEngine) (pkt : dict) (d : Decision) :
  inspect_packet float_repr e pkt = Ok d -> packet d = Some pkt.
Proof.
  unfold inspect_packet.
  destruct (py_eq (get pkt "ai_pred") (VStr "malicious"));
    [destruct (py_gt_float _ _) as [[|] | err] |]; intros [= <-]; reflexivity.
Qed.

(** X7: [inspect_packet] raises only for a packet marked "malicious" whose
    confidence is [None] or a string.  When it returns, the decision holds the
    packet it was given and a reason, and is either "block", for a packet
    marked "malicious" with a confidence above 0.8, or what the store decides. *)
Theorem inspect_packet_outcomes (e : RuleEngine) (pkt : dict) :
  let confidence := get_or pkt "ai_confidence" (VInt 0) in
  match inspect_packet float_repr e pkt with
  | Raise _ =>
      get pkt "ai_pred" = VStr "malicious"
      /\ (confidence = VNone \/ exists s, confidence = VStr s)
  | Ok d =>
      packet d = Some pkt
      /\ is_Some (reason d)
      /\ ((decision d = Some (VStr "block")
           /\ get pkt "ai_pred" = VStr "malicious"
           /\ py_gt_float confidence 0.8%float = Ok true)
          \/ decision d = Some (decide e pkt))
  end.
Proof.
  intros confidence. unfold inspect_packet. fold confidence.
  destruct (py_eq (get pkt "ai_pred") (VStr "malicious")) eqn:Hpred.
  - apply py_eq_str_iff in Hpred.
    destruct confidence as [| b | z | f | o | s] eqn:Hc; cbn [py_gt_float].
    + split; [exact Hpred | left; reflexivity].
    + destruct (Z_gt_float (Z_of_bool b) 0.8) eqn:Hgt; cbn; eauto 10.
    + destruct (Z_gt_float z 0.8) eqn:Hgt; cbn; eauto 10.
    + destruct (PrimFloat.ltb 0.8 f) eqn:Hgt; cbn; eauto 10.
    + cbn; eauto 10.
    + split; [exact Hpred | right; eauto].
  - cbn. eauto 10.
Qed.

(** X8: A packet without the key ai_confidence is never blocked by the verdict of
    the model: the confidence counts as 0 and the store decides. *)
Theorem inspect_packet_no_confidence (e : RuleEngine) (pkt : dict) :
  pkt !! "ai_confidence" = None ->
  verdict_of (inspect_packet float_repr e pkt) = Some (decide e pkt).
Proof.
  intros Hc. unfold inspect_packet, get_or. rewrite Hc. cbn [default from_option].
  destruct (py_eq (get pkt "ai_pred") (VStr "malicious")); reflexivity.
Qed.

(** *** respond_to_decision *)

Lemma block_ip_decide (ip : value) (e : RuleEngine) (w : World) (p : dict) :
  decide (fst (block_ip float_repr ip e w)) p = decide e p.
Proof.
  unfold block_ip.
  match goal with
  | |- context [add_rule ?r e w] =>
      change (decide (fst (add_rule r e w)) p = decide e p);
      apply StoreFacts.add_deny_rule_decide; reflexivity
  end.
Qed.

Lemma respond_decide (d : Decision) (e : RuleEngine) (w : World) (p : dict) :
  decide (fst (respond_to_decision float_repr d e w)) p = decide e p.
Proof.
  unfold respond_to_decision.
  destruct (py_eq (default VNone (decision d)) (VStr "block")).
  - pose proof (block_ip_decide (get (default ∅ (packet d)) "src_ip") e w p) as Hblock.
    destruct (block_ip float_repr (get (default ∅ (packet d)) "src_ip") e w) as [e1 w1].
    exact Hblock.
  - destruct (py_eq (default VNone (decision d)) (VStr "allow")); reflexivity.
Qed.

Lemma respond_log_prefix (d : Decision) (e : RuleEngine) (w : World) :
  action_log w `prefix_of` action_log (snd (respond_to_decision float_repr d e w)).
Proof.
  unfold respond_to_decision.
  destruct (py_eq (default VNone (decision d)) (VStr "block")).
  - cbn. rewrite <- app_assoc. now apply prefix_app_r.
  - destruct (py_eq (default VNone (decision d)) (VStr "allow")); cbn; now apply prefix_app_r.
Qed.

(** X9: Every response appends one or two entries to the action log and leaves
    the entries before them as they were; it writes no file but the one of the
    engine, and removes no rule. *)
Theorem respond_appends (d : Decision) (e : RuleEngine) (w : World) :
  let e' := fst (respond_to_decision float_repr d e w) in
  let w' := snd (respond_to_decision float_repr d e w) in
  (exists entries,
     action_log w' = action_log w ++ entries
     /\ (length entries = 1 \/ length entries = 2)%nat
     /\ clock w' = (clock w + length entries)%nat)
  /\ (forall path, path <> persist_path e -> files w' !! path = files w !! path)
  /\ persist_path e' = persist_path e
  /\ rules e `prefix_of` rules e'.
Proof.
  intros e' w'. subst e' w'. unfold respond_to_decision.
  destruct (py_eq (default VNone (decision d)) (VStr "block")).
  - cbn. split; [| split; [| split]].
    + eexists. rewrite <- app_assoc. split; [reflexivity |]. split; [right; reflexivity |].
      cbn. lia.
    + intros path Hpath. now rewrite lookup_insert_ne.
    + reflexivity.
    + now apply prefix_app_r.
  - destruct (py_eq (default VNone (decision d)) (VStr "allow")); cbn.
    + split; [| auto].
      eexists. split; [reflexivity |]. split; [left; reflexivity | cbn; lia].
    + split; [| auto].
      eexists. split; [reflexivity |]. split; [left; reflexivity | cbn; lia].
Qed.

(** X3: No response changes what the store decides for any packet: the only rule
    a response adds is a "deny" rule at the end of the list, which is reached
    only by packets that were denied before.  In particular a source that an
    older rule allows stays allowed after it was blocked. *)
Theorem respond_keeps_decisions (d : Decision) (e : RuleEngine) (w : World) (p : dict) :
  decide (fst (respond_to_decision float_repr d e w)) p = decide e p
  /\ forall ip : value, decide (fst (block_ip float_repr ip e w)) p = decide e p.
Proof.
  split.
  - apply respond_decide.
  - intros ip. apply block_ip_decide.
Qed.
End Facts.

End ResponseFacts.

(** ** The scores of the trust assessor *)

Module ScoreFacts.
Import Identity.

(** Case analysis on every check that is left of a verification. *)
Ltac split_checks_id :=
  repeat match goal with
         | |- context [if ?c then _ else _] => destruct c
         | |- context [match ?c with Some _ => _ | None => _ end] => destruct c
         end.

Lemma ltb_leb (x y : float) : PrimFloat.ltb x y = true -> PrimFloat.leb x y = true.
Proof.
  rewrite ltb_spec, leb_spec. unfold SFltb, SFleb.
  destruct (SFcompare (Prim2SF x) (Prim2SF y)) as [[| |] |]; congruence.
Qed.

(** Whatever float it is given, a NaN included, [clamp] returns a float
    between 0 and 1. *)
Lemma clamp_bounds (x : float) :
  PrimFloat.leb 0 (clamp x) = true /\ PrimFloat.leb (clamp x) 1 = true.
Proof.
  unfold clamp, py_min, py_max.
  destruct (PrimFloat.ltb x 1) eqn:H1.
  - destruct (PrimFloat.ltb 0 x) eqn:H0.
    + split; now apply ltb_leb.
    + split; reflexivity.
  - split; reflexivity.
Qed.

Section Scores.
Variable parse_date : string -> option float.
Variable sha256_hex : string -> string.
Variable float_repr : float -> string.

Lemma ctx_score_clamped (now_device now_user : float) (context : Context) :
  let cres := verify_context parse_date sha256_hex float_repr now_device now_user context in
  PrimFloat.leb 0 (ctx_score cres) = true /\ PrimFloat.leb (ctx_score cres) 1 = true.
Proof.
  cbv zeta. unfold verify_context.
  repeat match goal with
         | |- context [let '(_, _) := ?c in _] => destruct c
         end.
  cbn [ctx_score]. apply clamp_bounds.
Qed.

(** X12: The three verifications return a score between 0 and 1, for every
    assertion, date and clock; the device and the user pass exactly when their
    score is at least 0.6, the context is allowed exactly when its score is at
    least 0.65. *)
Theorem scores_clamped (now_device now_user : float)
    (d : DeviceAssertion) (u : UserAssertion) (context : Context) :
  let dres := verify_device parse_date sha256_hex now_device d in
  let ures := verify_user parse_date now_user u in
  let cres := verify_context parse_date sha256_hex float_repr now_device now_user context in
  (PrimFloat.leb 0 (score dres) = true /\ PrimFloat.leb (score dres) 1 = true
   /\ ok dres = PrimFloat.leb 0.6 (score dres))
  /\ (PrimFloat.leb 0 (score ures) = true /\ PrimFloat.leb (score ures) 1 = true
      /\ ok ures = PrimFloat.leb 0.6 (score ures))
  /\ (PrimFloat.leb 0 (ctx_score cres) = true /\ PrimFloat.leb (ctx_score cres) 1 = true
      /\ allow cres = PrimFloat.leb 0.65 (ctx_score cres)).
Proof.
  intros dres ures cres.
  assert (Hd : exists x, score dres = clamp x /\ ok dres = PrimFloat.leb 0.6 (clamp x)).
  { subst dres. unfold verify_device.
    repeat match goal with
           | |- context [let '(_, _) := ?c in _] => destruct c
           end.
    cbn [score ok]. eauto. }
  assert (Hu : exists x, score ures = clamp x /\ ok ures = PrimFloat.leb 0.6 (clamp x)).
  { subst ures. unfold verify_user.
    repeat match goal with
           | |- context [let '(_, _) := ?c in _] => destruct c
           end.
    cbn [score ok]. eauto. }
  assert (Hc : exists x, ctx_score cres = clamp x /\ allow cres = PrimFloat.leb 0.65 (clamp x)).
  { subst cres. unfold verify_context.
    repeat match goal with
           | |- context [let '(_, _) := ?c in _] => destruct c
           end.
    cbn [ctx_score allow]. eauto. }
  destruct Hd as (x & -> & ->), Hu as (y & -> & ->), Hc as (z & -> & ->).
  pose proof (clamp_bounds x) as [? ?].
  pose proof (clamp_bounds y) as [? ?].
  pose proof (clamp_bounds z) as [? ?].
  auto 10.
Qed.

(** X13: A user who authenticates by password only (the method is neither "mfa"
    nor "sso" and mfa_ok is not set) never passes [verify_user]: the score is
    at most 0.4. *)
Theorem password_only_fails (now : float) (u : UserAssertion) :
  String.eqb (default "password"%string (auth_method u)) "mfa" = false ->
  String.eqb (default "password"%string (auth_method u)) "sso" = false ->
  default false (mfa_ok u) = false ->
  ok (verify_user parse_date now u) = false
  /\ PrimFloat.leb (score (verify_user parse_date now u)) 0.4 = true.
Proof.
  intros Hmfa Hsso Hok. unfold verify_user.
  rewrite Hmfa, Hsso, Hok. cbn [orb].
  split_checks_id; split; vm_compute; reflexivity.
Qed.

(** X14: A device without an MDM signature and without a token that validates
    never passes [verify_device]: the score is at most 0.5. *)
Theorem unmanaged_device_fails (now : float) (d : DeviceAssertion) :
  default false (signed_by_mdm d) = false ->
  match truthy (device_presented_token d) with
  | Some token => String.eqb (py_prefix 6 (sha256_hex token)) "000000" = false
  | None => True
  end ->
  ok (verify_device parse_date sha256_hex now d) = false
  /\ PrimFloat.leb (score (verify_device parse_date sha256_hex now d)) 0.5 = true.
Proof.
  intros Hmdm Htoken. unfold verify_device, _hash_token.
  rewrite Hmdm.
  destruct (truthy (device_presented_token d)) as [token |];
    [rewrite Htoken |];
    split_checks_id; split; vm_compute; reflexivity.
Qed.
End Scores.

Lemma password_only_fails_witness :
  Identity.auth_method Samples.password_user = Some "password"%string
  /\ ok (verify_user today 1761600000 Samples.password_user) = false.
Proof.
  split; [reflexivity |].
  exact (proj1 (password_only_fails today 1761600000 Samples.password_user
                  eq_refl eq_refl eq_refl)).
Defined.

Lemma unmanaged_device_fails_witness :
  Identity.signed_by_mdm Samples.unmanaged_device = None
  /\ ok (verify_device today Samples.invalid_hash 1761600000 Samples.unmanaged_device) = false.
Proof.
  split; [reflexivity |].
  exact (proj1 (unmanaged_device_fails today Samples.invalid_hash 1761600000
                  Samples.unmanaged_device eq_refl eq_refl)).
Defined.

End ScoreFacts.

(** ** The threat feed and the firewall as a whole *)

Module FlowFacts.
Import Firewall Feed Integration Samples.

Lemma inspect_packet_no_confidence_witness :
  unrated_packet !! "ai_confidence"%string = None
  /\ get unrated_packet "ai_pred" = VStr "malicious"
  /\ verdict_of (inspect_packet any_repr r1_store unrated_packet) = Some (VStr "deny").
Proof.
  split; [vm_compute; reflexivity |]. split; [vm_compute; reflexivity |].
  exact (ResponseFacts.inspect_packet_no_confidence any_repr r1_store unrated_packet eq_refl).
Defined.

(** *** update_firewall_rules *)

Lemma add_feed_rules (ips : list string) :
  forall (e : RuleEngine) (w : World),
    let r := foldl (fun '(e, w) ip => add_rule (feed_rule ip) e w) (e, w) ips in
    rules (fst r) = rules e ++ (feed_rule <$> ips)
    /\ persist_path (fst r) = persist_path e
    /\ (ips <> [] -> files (snd r) !! persist_path e = Some (json_dump (rules (fst r))))
    /\ (forall p, decide (fst r) p = decide e p).
Proof.
  induction ips as [| ip ips IH]; intros e w; cbn [foldl].
  - cbn. rewrite app_nil_r. split; [reflexivity |]. split; [reflexivity |].
    split; [congruence | reflexivity].
  - destruct (IH (fst (add_rule (feed_rule ip) e w)) (snd (add_rule (feed_rule ip) e w)))
      as (Hrules & Hpath & Hfile & Hdecide).
    cbv zeta in *.
    change (add_rule (feed_rule ip) e w)
      with (fst (add_rule (feed_rule ip) e w), snd (add_rule (feed_rule ip) e w)).
    split; [| split; [| split]].
    + rewrite Hrules. cbn [add_rule fst rules]. now rewrite <- app_assoc.
    + rewrite Hpath. reflexivity.
    + intros _. destruct ips as [| ip' ips].
      * cbn. now rewrite lookup_insert_eq.
      * rewrite <- Hpath at 1. rewrite Hpath. apply Hfile. discriminate.
    + intros p. rewrite Hdecide.
      apply StoreFacts.add_deny_rule_decide. reflexivity.
Qed.

(** The rule written for an address holds strings only. *)
Lemma feed_rule_plain (ip : string) :
  map_Forall (fun _ v => own_nan v = false) (feed_rule ip).
Proof.
  unfold feed_rule.
  repeat (apply map_Forall_insert_2; [reflexivity |]). apply map_Forall_empty.
Qed.

(** X4: [update_firewall_rules] appends one deny rule for each of the first 1000
    addresses of the feed, in their order, and no more; the file then holds
    the rules of the engine (a new engine on the path holds them as they are
    once written and read, and so the very rules when the engine held no NaN
    object); with an empty or absent feed nothing is written; and whatever the
    feed, no packet is decided otherwise than before. *)
Theorem update_firewall_rules_effect (parsed_data : gmap string (list string))
    (e : RuleEngine) (w : World) :
  let ips := take 1000 (default [] (parsed_data !! "ips")) in
  let e' := fst (update_firewall_rules parsed_data e w) in
  let w' := snd (update_firewall_rules parsed_data e w) in
  rules e' = rules e ++ (feed_rule <$> ips)
  /\ (length (rules e') <= length (rules e) + 1000)%nat
  /\ (ips <> [] ->
      init (persist_path e) w' = reopened e'
      /\ (no_own_nan (rules e) -> init (persist_path e) w' = e'))
  /\ (ips = [] -> e' = e /\ w' = w)
  /\ (forall p, decide e' p = decide e p).
Proof.
  intros ips e' w'. subst e' w'. unfold update_firewall_rules. fold ips.
  destruct (add_feed_rules ips e w) as (Hrules & Hpath & Hfile & Hdecide).
  cbv zeta in *.
  split; [exact Hrules |]. split.
  { rewrite Hrules, length_app, length_fmap. subst ips. rewrite length_take. lia. }
  split.
  { intros Hne.
    assert (Hinit : init (persist_path e) (snd (foldl (fun '(e, w) ip => add_rule (feed_rule ip) e w) (e, w) ips))
                    = reopened (fst (foldl (fun '(e, w) ip => add_rule (feed_rule ip) e w) (e, w) ips))).
    { unfold init, load, reopened. cbn [persist_path rules].
      rewrite (Hfile Hne), FirewallFacts.json_load_dump, Hpath. reflexivity. }
    split; [exact Hinit |].
    intros Hplain. rewrite Hinit. apply FirewallFacts.reopened_id.
    rewrite Hrules. apply Forall_app. split; [exact Hplain |].
    apply Forall_fmap, Forall_forall. intros ip _. apply feed_rule_plain. }
  split; [| exact Hdecide].
  intros ->. split; reflexivity.
Qed.

Example feed_rules_added :
  map (fun r : dict => get r "id") (rules (fst (update_firewall_rules two_addresses r1_store empty_world)))
    = [VStr "r1"; VStr "threat_feed_10.0.0.5"; VStr "threat_feed_203.0.113.7"]
  /\ decide (fst (update_firewall_rules two_addresses r1_store empty_world)) tcp_packet
     = VStr "allow".
Proof. split; vm_compute; reflexivity. Qed.

(** *** process_packet *)

Section Process.
Variable parse_date : string -> option float.
Variable sha256_hex : string -> string.
Variable float_repr : float -> string.

(** X10: Whatever the packet and the context, [process_packet] writes the score of
    the context, a float between 0 and 1, over the key trust_score of the
    caller's packet, keeps the action log it found as a prefix of the new one,
    and changes no decision of the store.  When [inspect_packet] raises, the
    engine and the world are untouched; else the decision returned holds the
    updated packet. *)
Theorem process_packet_effects (now_device now_user : float)
    (pkt : dict) (context : Identity.Context) (e : RuleEngine) (w : World) :
  let zt := Identity.verify_context parse_date sha256_hex float_repr now_device now_user context in
  let r := process_packet parse_date sha256_hex float_repr now_device now_user pkt context e w in
  caller_packet r = <["trust_score" := VFloat (Identity.ctx_score zt)]> pkt
  /\ PrimFloat.leb 0 (Identity.ctx_score zt) = true
  /\ PrimFloat.leb (Identity.ctx_score zt) 1 = true
  /\ action_log w `prefix_of` action_log (world r)
  /\ (forall p, decide (engine r) p = decide e p)
  /\ match returned r with
     | Raise _ => engine r = e /\ world r = w
     | Ok (zt', d) => zt' = zt /\ packet d = Some (caller_packet r)
     end.
Proof.
  intros zt r. subst r. unfold process_packet. fold zt.
  pose proof (ScoreFacts.ctx_score_clamped parse_date sha256_hex float_repr
                now_device now_user context) as [H0 H1].
  cbv zeta in H0, H1. fold zt in H0, H1.
  set (pkt' := <["trust_score" := VFloat (Identity.ctx_score zt)]> pkt).
  pose proof (ResponseFacts.inspect_packet_packet float_repr e pkt') as Hinspect.
  destruct (inspect_packet float_repr e pkt') as [d | err].
  - specialize (Hinspect d eq_refl).
    pose proof (ResponseFacts.respond_log_prefix float_repr d e w) as Hlog.
    pose proof (ResponseFacts.respond_decide float_repr d e w) as Hdecide.
    destruct (respond_to_decision float_repr d e w) as [e1 w1].
    cbn [fst snd caller_packet engine world returned] in *.
    repeat split; assumption.
  - cbn [caller_packet engine world returned]. repeat split; try assumption; reflexivity.
Qed.

(** X11: A packet marked "malicious" with a confidence above 0.8 is blocked by
    [process_packet] whatever the context and the store: one deny rule for
    its source is appended and persisted (a new engine on the path holds the
    rules of the engine as they are once written and read, and so the very
    rules when no NaN object is among their values), a block_ip entry and an
    alert are logged, and the decision "block" is returned. *)
Theorem process_packet_blocks (now_device now_user : float)
    (pkt : dict) (context : Identity.Context) (e : RuleEngine) (w : World) :
  get pkt "ai_pred" = VStr "malicious" ->
  py_gt_float (get_or pkt "ai_confidence" (VInt 0)) 0.8%float = Ok true ->
  let r := process_packet parse_date sha256_hex float_repr now_device now_user pkt context e w in
  (exists zt, returned r =
     Ok (zt, {| decision := Some (VStr "block");
                reason := Some "AI detected malicious"%string;
                packet := Some (caller_packet r) |}))
  /\ (exists rule : dict,
        rules (engine r) = rules e ++ [rule]
        /\ get rule "src_ip" = get pkt "src_ip"
        /\ get rule "action" = VStr "deny")
  /\ init (persist_path e) (world r) = reopened (engine r)
  /\ (no_own_nan (rules (engine r)) -> init (persist_path e) (world r) = engine r)
  /\ map action (action_log (world r)) = map action (action_log w) ++ ["block_ip"; "alert"]%string.
Proof.
  intros Hpred Hconf r. subst r. unfold process_packet.
  set (zt := Identity.verify_context _ _ _ _ _ _).
  set (pkt' := <["trust_score" := VFloat (Identity.ctx_score zt)]> pkt).
  assert (Hpred' : get pkt' "ai_pred" = VStr "malicious").
  { unfold get, pkt'. rewrite lookup_insert_ne by discriminate. exact Hpred. }
  assert (Hconf' : get_or pkt' "ai_confidence" (VInt 0) = get_or pkt "ai_confidence" (VInt 0)).
  { unfold get_or, pkt'. now rewrite lookup_insert_ne by discriminate. }
  assert (Hsrc : get pkt' "src_ip" = get pkt "src_ip").
  { unfold get, pkt'. now rewrite lookup_insert_ne by discriminate. }
  assert (Hinspect : inspect_packet float_repr e pkt' =
            Ok {| decision := Some (VStr "block");
                  reason := Some "AI detected malicious"%string;
                  packet := Some pkt' |}).
  { unfold inspect_packet. rewrite Hpred', Hconf', Hconf. reflexivity. }
  rewrite Hinspect.
  unfold respond_to_decision. cbn [decision packet default from_option id].
  change (py_eq (VStr "block") (VStr "block")) with true. cbv iota.
  cbn [block_ip add_rule save send_alert log_action fst snd caller_packet engine world
       returned rules persist_path files action_log clock].
  split; [eexists; reflexivity |]. split.
  { eexists. split; [reflexivity |]. split; [| reflexivity].
    transitivity (get pkt' "src_ip"); [reflexivity | exact Hsrc]. }
  assert (Hinit : forall e1 : RuleEngine,
            init (persist_path e1) (send_alert "Blocked malicious packet" pkt'
                                      (log_action "block_ip"
                                         {[ "ip"%string := PScalar (get pkt' "src_ip") ]}
                                         (save e1 w)))
            = reopened e1).
  { intros e1. unfold init, load, send_alert, log_action, save, reopened.
    cbn [files persist_path rules].
    rewrite lookup_insert_eq, FirewallFacts.json_load_dump. reflexivity. }
  split; [apply (Hinit {| persist_path := persist_path e; rules := _ |}) |].
  split.
  { intros Hplain. rewrite (Hinit {| persist_path := persist_path e; rules := _ |}).
    now apply FirewallFacts.reopened_id. }
  unfold send_alert, log_action, save. cbn [action_log].
  rewrite !map_app. cbn. now rewrite <- app_assoc.
Qed.
End Process.

Lemma process_packet_blocks_witness :
  decide r1_store malicious_packet = VStr "allow"
  /\ map action
       (action_log (world (process_packet Identity.today Identity.valid_hash any_repr
                             1761600000 1761600000 malicious_packet
                             Identity.open_context r1_store empty_world)))
     = ["block_ip"; "alert"]%string.
Proof.
  split; [vm_compute; reflexivity |].
  exact (proj2 (proj2 (proj2 (proj2
           (process_packet_blocks Identity.today Identity.valid_hash any_repr
              1761600000 1761600000 malicious_packet Identity.open_context
              r1_store empty_world
              ltac:(vm_compute; reflexivity) ltac:(vm_compute; reflexivity)))))).
Defined.

End FlowFacts.

(** ** The default policy *)

Module PolicyRulesFacts.
Import Policy PolicyRules.

(** A float that is at least 0.8 is not below 0.3. *)
Lemma at_least_08_not_below_03 (f : float) :
  PrimFloat.leb 0.8 f = true -> PrimFloat.ltb f 0.3 = false.
Proof.
  rewrite leb_spec, ltb_spec.
  let x := eval vm_compute in (Prim2SF 0.8) in change (Prim2SF 0.8) with x.
  let x := eval vm_compute in (Prim2SF 0.3) in change (Prim2SF 0.3) with x.
  destruct (Prim2SF f) as [s | s | | s m e]; unfold SFleb, SFltb, SFcompare.
  - discriminate.
  - destruct s; [discriminate | reflexivity].
  - discriminate.
  - destruct s; [discriminate |].
    destruct (Z.compare_spec (-53) e) as [<- | Hlt | Hgt].
    + reflexivity.
    + intros _. destruct (Z.compare_spec e (-54)); first [lia | reflexivity].
    + discriminate.
Qed.

Section Facts.
Variable float_of_string : string -> option float.
Context {Res : Type}.
Implicit Types (context : RequestContext) (resource : Res).

(** The context as [evaluate_request] leaves it. *)
Lemma evaluate_request_context (utc_hour : Z) context resource
    (engine : option (RuleEngine Env Res)) :
  let context' := snd (evaluate_request float_of_string utc_hour context resource engine) in
  score_of context' = score_of context
  /\ user_assertion context' = user_assertion context
  /\ geo context' = geo context
  /\ time_zone_offset context' = time_zone_offset context
  /\ score context' = score context
  /\ trust_score context' = match trust_score context with
                            | Some v => Some v
                            | None => score context
                            end.
Proof.
  unfold evaluate_request. cbn [snd].
  destruct (trust_score context) as [v |] eqn:Hts, (score context) as [sc |] eqn:Hsc;
    (split; [| cbn [user_assertion geo time_zone_offset score trust_score];
               rewrite ?Hts, ?Hsc; repeat split; reflexivity]);
    unfold score_of; cbn [trust_score score]; rewrite ?Hts, ?Hsc; try reflexivity.
  cbn [default from_option id]. unfold py_or. cbn [py_bool].
  destruct (py_bool sc) eqn:Hb; rewrite ?Hb; reflexivity.
Qed.

(** The rules of the default engine in the order in which they are consulted:
    admin_internal, added last, comes second. *)
Lemma default_rule_engine_rules :
  rules (default_rule_engine float_of_string (Res := Res)) =
    [ block_low_trust; admin_internal; allow_high_trust float_of_string; working_hours_allow ].
Proof. reflexivity. Qed.

(** The comparisons and conversions of the predicates raise instances of
    [Exception] only. *)
Lemma py_lt_float_caught (v : value) (c : float) (class msg : string) :
  py_lt_float v c <> Raise (BaseException class msg).
Proof. destruct v; discriminate. Qed.

Lemma py_float_caught (v : value) (class msg : string) :
  py_float float_of_string v <> Raise (BaseException class msg).
Proof.
  destruct v as [| b | z | f | o | t]; cbn [py_float]; try discriminate;
    unfold float_of_Z;
    repeat match goal with
           | |- context [if ?c then _ else _] => destruct c
           | |- context [match float_of_string ?t with _ => _ end] => destruct (float_of_string t)
           end; discriminate.
Qed.

(** The four rules of the default engine let no exception through. *)
Lemma default_rules_return (env : Env) resource :
  applies block_low_trust env resource = Ok (holds block_low_trust env resource)
  /\ applies admin_internal env resource = Ok (holds admin_internal env resource)
  /\ applies (allow_high_trust float_of_string) env resource
     = Ok (holds (allow_high_trust float_of_string) env resource)
  /\ applies working_hours_allow env resource = Ok (holds working_hours_allow env resource).
Proof.
  unfold holds, applies, block_low_trust, admin_internal, allow_high_trust,
    working_hours_allow, trust_score_below_03, always_allow_admin_network,
    trust_score_above, time_of_day_allowed.
  cbn [predicate].
  split; [| split; [| split]].
  - pose proof (py_lt_float_caught (score_of (snd env)) 0.3) as H.
    destruct (py_lt_float (score_of (snd env)) 0.3) as [b | [class msg | class msg]];
      [reflexivity | reflexivity | now destruct (H class msg)].
  - destruct (_ && _); reflexivity.
  - pose proof (py_float_caught (score_of (snd env))) as H.
    destruct (py_float float_of_string (score_of (snd env))) as [f | [class msg | class msg]];
      [reflexivity | reflexivity | now destruct (H class msg)].
  - reflexivity.
Qed.

(** The table of the default engine, read on the context of the caller. *)
Lemma default_engine_table (utc_hour : Z) context resource :
  let r := evaluate_request float_of_string utc_hour context resource None in
  let env : Env := (utc_hour, context) in
  exists d,
    fst r = Ok d
    /\ (decision_action d, decision_rule d) =
         (if holds block_low_trust env resource
          then ("deny", "block_low_trust")
          else if holds admin_internal env resource
          then ("allow", "admin_internal")
          else if holds (allow_high_trust float_of_string) env resource
          then ("allow", "allow_high_trust")
          else if holds working_hours_allow env resource
          then ("allow", "working_hours_allow")
          else ("deny", "default-deny"))%string
    /\ decision_resource d = resource
    /\ context_score d = default (VFloat 0.0) (trust_score (snd r)).
Proof.
  intros r env. subst r.
  pose proof (evaluate_request_context utc_hour context resource None)
    as (Hscore & Huser & Hgeo & Htz & _).
  cbv zeta in *.
  unfold evaluate_request in *. cbn [fst snd default from_option] in *.
  set (context' := match trust_score context with
                   | Some _ => _
                   | None => _
                   end) in *.
  unfold evaluate. rewrite default_rule_engine_rules.
  destruct (default_rules_return (utc_hour, context') resource) as (R1 & R2 & R3 & R4).
  assert (H1 : holds block_low_trust (utc_hour, context') resource
               = holds block_low_trust env resource).
  { unfold holds, applies, block_low_trust, trust_score_below_03; cbn. now rewrite Hscore. }
  assert (H2 : holds admin_internal (utc_hour, context') resource
               = holds admin_internal env resource).
  { unfold holds, applies, admin_internal, always_allow_admin_network; cbn.
    now rewrite Huser, Hgeo. }
  assert (H3 : holds (allow_high_trust float_of_string) (utc_hour, context') resource
               = holds (allow_high_trust float_of_string) env resource).
  { unfold holds, applies, allow_high_trust, trust_score_above; cbn. now rewrite Hscore. }
  assert (H4 : holds working_hours_allow (utc_hour, context') resource
               = holds working_hours_allow env resource).
  { unfold holds, applies, working_hours_allow, time_of_day_allowed; cbn. now rewrite Htz. }
  cbn [evaluate_rules]. rewrite R1, R2, R3, R4, H1, H2, H3, H4.
  destruct (holds block_low_trust env resource); [eexists; repeat split; reflexivity |].
  destruct (holds admin_internal env resource); [eexists; repeat split; reflexivity |].
  destruct (holds (allow_high_trust float_of_string) env resource);
    [eexists; repeat split; reflexivity |].
  destruct (holds working_hours_allow env resource); eexists; repeat split; reflexivity.
Qed.

(** X15: [evaluate_request] with the default engine returns, and decides by the
    first of four tests that holds, on the context as the caller gave it: a
    score below 0.3 denies; else an admin on the internal network is allowed;
    else a score of 0.8 or more is allowed; else the hour of the day, shifted
    by the time zone, allows from 7 to 19; else the request is denied by
    default.  None of the four tests lets an exception through: one that
    raises counts as one that fails.  The decision carries the resource and,
    as context_score, the trust_score of the context, else its score, else
    0.0; the context of the caller gets the key trust_score when it had only
    score. *)
Theorem evaluate_request_default (utc_hour : Z) context resource :
  let r := evaluate_request float_of_string utc_hour context resource None in
  let env : Env := (utc_hour, context) in
  (exists d,
     fst r = Ok d
     /\ (decision_action d, decision_rule d) =
          (if holds block_low_trust env resource
           then ("deny", "block_low_trust")
           else if holds admin_internal env resource
           then ("allow", "admin_internal")
           else if holds (allow_high_trust float_of_string) env resource
           then ("allow", "allow_high_trust")
           else if holds working_hours_allow env resource
           then ("allow", "working_hours_allow")
           else ("deny", "default-deny"))%string
     /\ decision_resource d = resource
     /\ context_score d = match trust_score context, score context with
                          | Some v, _ => v
                          | None, Some sc => sc
                          | None, None => VFloat 0.0
                          end)
  /\ Forall (fun rule => applies rule env resource = Ok (holds rule env resource))
       [ block_low_trust; admin_internal; allow_high_trust float_of_string;
         working_hours_allow ]
  /\ trust_score (snd r) = match trust_score context with
                           | Some v => Some v
                           | None => score context
                           end.
Proof.
  intros r env.
  pose proof (proj2 (proj2 (proj2 (proj2 (proj2
                (evaluate_request_context utc_hour context resource None)))))) as Hts.
  cbv zeta in Hts. fold r in Hts.
  split; [| split; [| exact Hts]].
  - destruct (default_engine_table utc_hour context resource) as (d & Hd & Htable & Hres & Hsc).
    exists d. split; [exact Hd |]. split; [exact Htable |]. split; [exact Hres |].
    rewrite Hsc. fold r. rewrite Hts.
    destruct (trust_score context), (score context); reflexivity.
  - destruct (default_rules_return env resource) as (R1 & R2 & R3 & R4).
    repeat constructor; assumption.
Qed.

(** X16: A request whose score is below 0.3 is denied by the rule block_low_trust,
    whoever asks, from wherever, at whatever hour; and so is a request without
    a score, or with the score 0 or [None] under both keys, which counts
    as 0.0: an admin on the internal network is denied too. *)
Theorem low_or_missing_score_denied (utc_hour : Z) context resource :
  let r := fst (evaluate_request float_of_string utc_hour context resource None) in
  (forall f, score_of context = VFloat f -> PrimFloat.ltb f 0.3 = true ->
     exists d, r = Ok d
       /\ decision_action d = "deny"%string /\ decision_rule d = "block_low_trust"%string)
  /\ (py_bool (default VNone (trust_score context)) = false ->
      py_bool (default VNone (score context)) = false ->
      exists d, r = Ok d
        /\ decision_action d = "deny"%string /\ decision_rule d = "block_low_trust"%string).
Proof.
  intros r.
  assert (Hlow : forall f, score_of context = VFloat f -> PrimFloat.ltb f 0.3 = true ->
            exists d, r = Ok d
              /\ decision_action d = "deny"%string
              /\ decision_rule d = "block_low_trust"%string).
  { intros f Hscore Hlt.
    destruct (default_engine_table utc_hour context resource) as (d & Hd & Htable & _).
    assert (Happ : holds block_low_trust (utc_hour, context) resource = true).
    { unfold holds, applies, block_low_trust, trust_score_below_03; cbn.
      rewrite Hscore. cbn. now rewrite Hlt. }
    rewrite Happ in Htable. injection Htable as Ha Hr.
    exists d. split; [exact Hd |]. split; [exact Ha | exact Hr]. }
  split; [exact Hlow |].
  intros Hts Hsc. apply (Hlow 0%float); [| reflexivity].
  unfold score_of, py_or. now rewrite Hts, Hsc.
Qed.

(** X17: A request whose score is a float of 0.8 or more is allowed at every hour,
    by the rule admin_internal or by the rule allow_high_trust. *)
Theorem high_score_allowed (utc_hour : Z) context resource (f : float) :
  score_of context = VFloat f ->
  PrimFloat.leb 0.8 f = true ->
  exists d,
    fst (evaluate_request float_of_string utc_hour context resource None) = Ok d
    /\ decision_action d = "allow"%string
    /\ (decision_rule d = "admin_internal"%string
        \/ decision_rule d = "allow_high_trust"%string).
Proof.
  intros Hscore Hge.
  destruct (default_engine_table utc_hour context resource) as (d & Hd & Htable & _).
  assert (Hlow : holds block_low_trust (utc_hour, context) resource = false).
  { unfold holds, applies, block_low_trust, trust_score_below_03; cbn.
    rewrite Hscore. cbn. now rewrite (at_least_08_not_below_03 f Hge). }
  assert (Hhigh : holds (allow_high_trust float_of_string) (utc_hour, context) resource = true).
  { unfold holds, applies, allow_high_trust, trust_score_above; cbn.
    rewrite Hscore. cbn. now rewrite Hge. }
  rewrite Hlow, Hhigh in Htable.
  exists d. split; [exact Hd |].
  destruct (holds admin_internal (utc_hour, context) resource);
    injection Htable as Ha Hr; (split; [exact Ha |]); [left | right]; exact Hr.
Qed.

(** X18: A request with a score from 0.3 up to but not 0.8, not from an admin on
    the internal network, is decided by the clock alone: allowed when the hour
    of the day, the UTC hour plus the offset of the time zone modulo 24, is
    from 7 to 19, and denied by default at any other hour. *)
Theorem middling_score_by_hour (utc_hour : Z) context resource (f : float) :
  score_of context = VFloat f ->
  PrimFloat.ltb f 0.3 = false ->
  PrimFloat.leb 0.8 f = false ->
  applies admin_internal (utc_hour, context) resource = Ok false ->
  let hour := (utc_hour + default 0 (time_zone_offset context)) mod 24 in
  exists d,
    fst (evaluate_request float_of_string utc_hour context resource None) = Ok d
    /\ (decision_action d, decision_rule d) =
       if (7 <=? hour) && (hour <? 20)
       then ("allow"%string, "working_hours_allow"%string)
       else ("deny"%string, "default-deny"%string).
Proof.
  intros Hscore Hlow Hhigh Hadmin hour.
  destruct (default_engine_table utc_hour context resource) as (d & Hd & Htable & _).
  assert (H1 : holds block_low_trust (utc_hour, context) resource = false).
  { unfold holds, applies, block_low_trust, trust_score_below_03; cbn.
    rewrite Hscore. cbn. now rewrite Hlow. }
  assert (H2 : holds admin_internal (utc_hour, context) resource = false)
    by (unfold holds; now rewrite Hadmin).
  assert (H3 : holds (allow_high_trust float_of_string) (utc_hour, context) resource = false).
  { unfold holds, applies, allow_high_trust, trust_score_above; cbn.
    rewrite Hscore. cbn. now rewrite Hhigh. }
  rewrite H1, H2, H3 in Htable.
  unfold holds, applies, working_hours_allow, time_of_day_allowed in Htable;
    cbn [predicate py_bool fst snd] in Htable.
  exists d. split; [exact Hd | exact Htable].
Qed.
End Facts.

Lemma high_score_allowed_witness :
  score_of Samples.high_request = VFloat 0.9%float
  /\ exists d,
      fst (evaluate_request Samples.no_float 3 Samples.high_request tt None) = Ok d
      /\ decision_action d = "allow"%string
      /\ (decision_rule d = "admin_internal"%string
          \/ decision_rule d = "allow_high_trust"%string).
Proof.
  split; [reflexivity |].
  exact (high_score_allowed Samples.no_float 3 Samples.high_request tt 0.9%float
           eq_refl eq_refl).
Defined.

Lemma middling_score_by_hour_witness :
  score_of Samples.middling_request = VFloat 0.5%float
  /\ exists d,
      fst (evaluate_request Samples.no_float 3 Samples.middling_request tt None) = Ok d
      /\ (decision_action d, decision_rule d) = ("deny", "default-deny")%string.
Proof.
  split; [reflexivity |].
  exact (middling_score_by_hour Samples.no_float 3 Samples.middling_request tt 0.5%float
           eq_refl eq_refl eq_refl eq_refl).
Defined.

Example high_request_rule :
  decision_rule <$> option_of (fst (evaluate_request Samples.no_float 3 Samples.high_request tt None))
    = Some "allow_high_trust"%string.
Proof. reflexivity. Qed.

Example unscored_admin_denied :
  decision_rule <$> option_of (fst (evaluate_request Samples.no_float 12
                                      Samples.unscored_admin_request tt None))
    = Some "block_low_trust"%string.
Proof. reflexivity. Qed.

End PolicyRulesFacts.

(** ** The session monitor beyond the data counter *)

Module MonitorFacts.
Import Session SessionSpec.

(** *** The sliding window *)

Lemma length_last_n {A} (n : nat) (l : list A) : (length (last_n n l) <= n)%nat.
Proof. unfold last_n. rewrite length_drop. lia. Qed.

Lemma last_n_short {A} (n : nat) (l : list A) : (length l <= n)%nat -> last_n n l = l.
Proof. intros H. unfold last_n. now replace (length l - n)%nat with 0%nat by lia. Qed.

(** Keeping the last [n] twice is keeping the last [n] once. *)
Lemma last_n_app {A} (n : nat) (l k : list A) :
  last_n n (last_n n l ++ k) = last_n n (l ++ k).
Proof.
  destruct (decide (length l <= n)%nat) as [Hle | Hgt].
  - now rewrite (last_n_short n l Hle).
  - unfold last_n. rewrite !length_app, length_drop, !drop_app, !length_drop, !drop_drop.
    f_equal; f_equal; lia.
Qed.

(** What an update leaves in the windows: the event is appended to the window
    of its session, and the oldest event goes once there are more than 500. *)
Lemma update_session_window (sid : string) (ev : SessionEvent) (m : Monitor) :
  _session_events (fst (update_session sid ev m)) =
    <[sid := last_n 500 (default [] (_session_events m !! sid) ++ [ev])]> (_session_events m).
Proof.
  unfold update_session.
  destruct (_sessions m !! sid) as [s |]; cbn [create_session];
    repeat match goal with
           | |- context [if ?c then _ else _] => destruct c
           end; reflexivity.
Qed.

Lemma step_windows_bounded (m : Monitor) (op : Op) :
  windows_bounded m -> windows_bounded (step m op).
Proof.
  intros Hm. destruct op as [sid ctx | sid ev | sid | sid]; cbn [step].
  - exact Hm.
  - intros sid' events. rewrite update_session_window.
    destruct (decide (sid = sid')) as [<- | Hne].
    + rewrite lookup_insert_eq. intros [= <-]. apply length_last_n.
    + rewrite lookup_insert_ne by exact Hne. apply Hm.
  - unfold check_session. destruct (_sessions m !! sid) as [s |]; [| exact Hm].
    destruct (2 <=? _)%nat; exact Hm.
  - unfold end_session. destruct (_sessions m !! sid) as [s |]; exact Hm.
Qed.

(** X19: No sequence of operations makes a window longer than 500 events. *)
Theorem windows_stay_bounded (ops : list Op) :
  windows_bounded (run initial ops)
  /\ forall m, windows_bounded m -> windows_bounded (run m ops).
Proof.
  assert (H : forall m, windows_bounded m -> windows_bounded (run m ops)).
  { induction ops as [| op ops IH]; intros m Hm; [exact Hm |].
    apply IH, step_windows_bounded, Hm. }
  split; [| exact H].
  apply H. intros sid events Hl. cbn in Hl. now rewrite lookup_empty in Hl.
Qed.

(** The window after a run of updates of one session. *)
Lemma window_after_updates (sid : string) (evs : list SessionEvent) :
  forall m : Monitor,
    (length (default [] (_session_events m !! sid)) <= 500)%nat ->
    default [] (_session_events (run m (Update sid <$> evs)) !! sid)
    = last_n 500 (default [] (_session_events m !! sid) ++ evs).
Proof.
  induction evs as [| ev evs IH]; intros m Hm.
  - cbn. rewrite app_nil_r. symmetry. now apply last_n_short.
  - rewrite fmap_cons. change (run m (Update sid ev :: (Update sid <$> evs)))
      with (run (fst (update_session sid ev m)) (Update sid <$> evs)).
    assert (Hw : default [] (_session_events (fst (update_session sid ev m)) !! sid)
                 = last_n 500 (default [] (_session_events m !! sid) ++ [ev])).
    { rewrite update_session_window, lookup_insert_eq. reflexivity. }
    rewrite IH; rewrite Hw; [| apply length_last_n].
    rewrite last_n_app, <- app_assoc. reflexivity.
Qed.

Lemma other_windows_kept (sid sid' : string) (evs : list SessionEvent) :
  sid <> sid' ->
  forall m : Monitor,
    _session_events (run m (Update sid <$> evs)) !! sid' = _session_events m !! sid'.
Proof.
  intros Hne. induction evs as [| ev evs IH]; intros m; [reflexivity |].
  rewrite fmap_cons, SessionFacts.run_cons, IH. cbn [step].
  rewrite update_session_window. now rewrite lookup_insert_ne.
Qed.

(** X20: The window of a session holds its last 500 events, oldest first:
    after any updates of the session it is the last 500 of what it held
    followed by the new events, and the windows of the other sessions are as
    they were. *)
Theorem window_is_last_500 (sid : string) (evs : list SessionEvent) (m : Monitor) :
  (length (default [] (_session_events m !! sid)) <= 500)%nat ->
  default [] (_session_events (run m (Update sid <$> evs)) !! sid)
    = last_n 500 (default [] (_session_events m !! sid) ++ evs)
  /\ forall sid', sid <> sid' ->
       _session_events (run m (Update sid <$> evs)) !! sid' = _session_events m !! sid'.
Proof.
  intros Hm. split.
  - now apply window_after_updates.
  - intros sid' Hne. now apply other_windows_kept.
Qed.

Lemma window_is_last_500_witness :
  default [] (_session_events
                (run fresh_monitor (Update "s1" <$> replicate 502 (flow "8.8.8.8" 1))) !! "s1"%string)
  = last_n 500 ([] ++ replicate 502 (flow "8.8.8.8" 1)).
Proof.
  apply (window_is_last_500 "s1" (replicate 502 (flow "8.8.8.8" 1)) fresh_monitor).
  change (0 <= 500)%nat. lia.
Defined.

(** *** Many destinations *)

Lemma last_n_last_n {A} (n k : nat) (l : list A) :
  (n <= k)%nat -> last_n n (last_n k l) = last_n n l.
Proof.
  intros Hnk. unfold last_n. rewrite length_drop, drop_drop. f_equal. lia.
Qed.

(** The number the code counts is the number of distinct destinations. *)
Lemma unique_destinations_size (events : list SessionEvent) :
  size (unique_destinations events) = length (distinct_destinations events).
Proof.
  unfold unique_destinations, distinct_destinations.
  change (fun e => Identity.truthy (dst_ip e)) with destination.
  rewrite <- (size_list_to_set (C := gset string) (remove_dups (omap destination events)))
    by apply NoDup_remove_dups.
  f_equal. apply set_eq. intros x.
  rewrite !elem_of_list_to_set, elem_of_remove_dups. reflexivity.
Qed.

(** What an update does when the last 50 events of the window go to more than
    20 destinations: the status becomes "suspicious" and the last alert is a
    many_unique_destinations with their number. *)
Lemma update_session_destinations (sid : string) (ev : SessionEvent) (m : Monitor) :
  let events := last_n 500 (default [] (_session_events m !! sid) ++ [ev]) in
  let n := size (unique_destinations (last_n 50 events)) in
  (20 < n)%nat ->
  let s' := snd (update_session sid ev m) in
  status s' = "suspicious"%string
  /\ exists before a,
       default [] (alerts s') = before ++ [a]
       /\ reason a = "many_unique_destinations"%string
       /\ alert_unique_dst a = Some n.
Proof.
  intros events n Hn. apply Nat.ltb_lt in Hn.
  unfold update_session.
  destruct (_sessions m !! sid) as [s |]; cbn [create_session _session_events];
    change (deque_append 500 ev (default [] (_session_events m !! sid))) with events;
    fold n; rewrite Hn;
    destruct (100 * 1024 * 1024 <? _);
    cbn [snd status set_status append_alert alerts default from_option id];
    (split; [reflexivity |]); eexists _, _; (split; [reflexivity |]); split; reflexivity.
Qed.

(** And when they go to 20 destinations or fewer: no such alert is added. *)
Lemma update_session_few_destinations (sid : string) (ev : SessionEvent) (m : Monitor) :
  let events := last_n 500 (default [] (_session_events m !! sid) ++ [ev]) in
  let n := size (unique_destinations (last_n 50 events)) in
  (n <= 20)%nat ->
  alerts_tagged "many_unique_destinations" (snd (update_session sid ev m))
  = default [] (alerts_tagged "many_unique_destinations" <$> _sessions m !! sid).
Proof.
  intros events n Hn. apply Nat.ltb_ge in Hn.
  unfold update_session.
  destruct (_sessions m !! sid) as [s |]; cbn [create_session _session_events];
    change (deque_append 500 ev (default [] (_session_events m !! sid))) with events;
    fold n; rewrite Hn;
    destruct (100 * 1024 * 1024 <? _);
    cbn [snd fmap option_fmap option_map default from_option id];
    unfold alerts_tagged;
    cbn [alerts append_alert set_status default from_option id];
    rewrite ?filter_app, ?filter_cons, ?filter_nil; cbn [reason];
    repeat match goal with
           | |- context [decide (?a = ?b)] =>
               destruct (decide (a = b)); try discriminate
           end;
    rewrite ?app_nil_r; reflexivity.
Qed.

(** X21: Whatever the session held, once the last 50 events of its window go
    to more than 20 distinct destinations the session is "suspicious" and its
    last alert is a many_unique_destinations that records their number, the
    number of destinations and not of events; when they go to 20 or fewer the
    event adds no such alert.  The session is created when it did not
    exist. *)
Theorem many_destinations_flagged (sid : string) (evs : list SessionEvent)
    (ev : SessionEvent) (m : Monitor) :
  (length (default [] (_session_events m !! sid)) <= 500)%nat ->
  let before_last := run m (Update sid <$> evs) in
  let recent := last_n 50 (default [] (_session_events m !! sid) ++ evs ++ [ev]) in
  let n := length (distinct_destinations recent) in
  exists s,
    _sessions (run m (Update sid <$> evs ++ [ev])) !! sid = Some s
    /\ ((20 < n)%nat ->
        status s = "suspicious"%string
        /\ exists before a,
             default [] (alerts s) = before ++ [a]
             /\ reason a = "many_unique_destinations"%string
             /\ alert_unique_dst a = Some n)
    /\ ((n <= 20)%nat ->
        alerts_tagged "many_unique_destinations" s
        = default [] (alerts_tagged "many_unique_destinations"
                        <$> _sessions before_last !! sid)).
Proof.
  intros Hm before_last recent n.
  rewrite fmap_app, SessionFacts.run_app. cbn [fmap list_fmap run foldl step].
  fold before_last.
  assert (Hrecent : last_n 50 (last_n 500 (default [] (_session_events before_last !! sid)
                                           ++ [ev])) = recent).
  { unfold before_last. rewrite window_after_updates by exact Hm.
    rewrite last_n_app, last_n_last_n by lia. now rewrite <- app_assoc. }
  pose proof (update_session_destinations sid ev before_last) as Hmany.
  pose proof (update_session_few_destinations sid ev before_last) as Hfew.
  cbv zeta in Hmany, Hfew.
  rewrite Hrecent, unique_destinations_size in Hmany, Hfew. fold n in Hmany, Hfew.
  exists (snd (update_session sid ev before_last)).
  split; [apply SessionFacts.update_session_stored |].
  split; [exact Hmany | exact Hfew].
Qed.

(** *** Counters *)

Lemma update_session_counts (sid : string) (ev : SessionEvent) (m : Monitor) :
  let s' := snd (update_session sid ev m) in
  cumulative_bytes s' = default 0 (cumulative_bytes <$> _sessions m !! sid) + default 0 (bytes ev)
  /\ events_count s' = default 0 (events_count <$> _sessions m !! sid) + 1.
Proof.
  unfold update_session.
  destruct (_sessions m !! sid) as [s |]; cbn [create_session];
    repeat match goal with
           | |- context [if ?c then _ else _] => destruct c
           end; cbn; split; reflexivity.
Qed.

(** X22: After any events, for a session that existed or not, the session exists,
    its event count has grown by their number and its byte counter by the sum
    of their byte counts, an absent count being 0. *)
Theorem updates_counted (sid : string) (evs : list SessionEvent) :
  forall m : Monitor,
    evs <> [] ->
    exists s,
      _sessions (run m (Update sid <$> evs)) !! sid = Some s
      /\ cumulative_bytes s
         = default 0 (cumulative_bytes <$> _sessions m !! sid) + total_bytes evs
      /\ events_count s
         = default 0 (events_count <$> _sessions m !! sid) + Z.of_nat (length evs).
Proof.
  induction evs as [| ev evs IH]; intros m Hne; [congruence |].
  rewrite fmap_cons, SessionFacts.run_cons. cbn [step].
  pose proof (SessionFacts.update_session_stored sid ev m) as Hstored.
  pose proof (update_session_counts sid ev m) as [Hbytes Hcount]. cbv zeta in Hbytes, Hcount.
  destruct evs as [| ev' evs].
  - exists (snd (update_session sid ev m)). split; [exact Hstored |].
    cbn [total_bytes foldr length]. split; lia.
  - destruct (IH (fst (update_session sid ev m)) ltac:(discriminate)) as (s & Hs & Hb & Hc).
    exists s. split; [exact Hs |].
    rewrite Hstored in Hb, Hc. cbn [fmap option_fmap option_map default from_option id] in Hb, Hc.
    rewrite Hb, Hc, Hbytes, Hcount.
    change (total_bytes (ev :: ev' :: evs)) with (default 0 (bytes ev) + total_bytes (ev' :: evs)).
    cbn [length]. split; lia.
Qed.

(** *** What no operation undoes *)

Lemma step_keeps_history (sid : string) (m : Monitor) (op : Op) (s : SessionDict) :
  _sessions m !! sid = Some s ->
  keeps_session sid op ->
  exists s', _sessions (step m op) !! sid = Some s'
             /\ default [] (alerts s) `prefix_of` default [] (alerts s')
             /\ (status s <> "active"%string -> status s' <> "active"%string)
             /\ created_at s' = created_at s
             /\ context s' = context s
             /\ events_count s <= events_count s'.
Proof.
  intros Hs Hop.
  assert (Hsame : forall m', _sessions m' !! sid = Some s ->
            exists s', _sessions m' !! sid = Some s'
                       /\ default [] (alerts s) `prefix_of` default [] (alerts s')
                       /\ (status s <> "active"%string -> status s' <> "active"%string)
                       /\ created_at s' = created_at s
                       /\ context s' = context s
                       /\ events_count s <= events_count s').
  { intros m' Hm'. exists s. split; [exact Hm' |]. split; [reflexivity |].
    split; [auto |]. split; [reflexivity |]. split; [reflexivity | lia]. }
  destruct op as [sid' ctx | sid' ev | sid' | sid']; cbn [step keeps_session] in *.
  - apply Hsame. cbn [create_session fst _sessions]. now rewrite lookup_insert_ne.
  - destruct (decide (sid' = sid)) as [-> | Hne].
    + exists (snd (update_session sid ev m)).
      split; [apply SessionFacts.update_session_stored |].
      unfold update_session. rewrite Hs.
      repeat match goal with
             | |- context [if ?c then _ else _] => destruct c
             end;
        cbn [snd alerts status created_at context events_count append_alert set_status
             default from_option id];
        (split; [first [reflexivity | apply prefix_app_r; reflexivity
                        | rewrite <- app_assoc; apply prefix_app_r; reflexivity] |]);
        (split; [first [discriminate | tauto] |]);
        (split; [reflexivity |]); (split; [reflexivity | lia]).
    + apply Hsame. now rewrite SessionFacts.update_session_other.
  - unfold check_session. destruct (decide (sid' = sid)) as [-> | Hne].
    + rewrite Hs. destruct (2 <=? _)%nat; cbn [fst _sessions]; [| now apply Hsame].
      eexists. split; [apply lookup_insert_eq |].
      cbn [set_status alerts status created_at context events_count].
      split; [reflexivity |]. split; [discriminate |].
      split; [reflexivity |]. split; [reflexivity | lia].
    + apply Hsame.
      destruct (_sessions m !! sid') as [s0 |]; [| exact Hs].
      destruct (2 <=? _)%nat; cbn [fst _sessions]; [| exact Hs].
      now rewrite lookup_insert_ne.
  - unfold end_session. destruct (decide (sid' = sid)) as [-> | Hne].
    + rewrite Hs. cbn [_sessions]. eexists. split; [apply lookup_insert_eq |].
      cbn [alerts status created_at context events_count].
      split; [reflexivity |]. split; [discriminate |].
      split; [reflexivity |]. split; [reflexivity | lia].
    + apply Hsame.
      destruct (_sessions m !! sid') as [s0 |]; [| exact Hs].
      cbn [_sessions]. now rewrite lookup_insert_ne.
Qed.

(** X23: As long as a session is not created anew, no operation removes or
    reorders its alerts, none makes it "active" again once it is not, and
    none changes its creation time or its context. *)
Theorem session_history_kept (sid : string) (ops : list Op) :
  forall (m : Monitor) (s : SessionDict),
    _sessions m !! sid = Some s ->
    Forall (keeps_session sid) ops ->
    exists s', _sessions (run m ops) !! sid = Some s'
               /\ default [] (alerts s) `prefix_of` default [] (alerts s')
               /\ (status s <> "active"%string -> status s' <> "active"%string)
               /\ created_at s' = created_at s
               /\ context s' = context s
               /\ events_count s <= events_count s'.
Proof.
  induction ops as [| op ops IH]; intros m s Hs Hops.
  - exists s. split; [exact Hs |]. split; [reflexivity |].
    split; [auto |]. split; [reflexivity |]. split; [reflexivity | lia].
  - apply Forall_cons in Hops as [Hop Hops].
    destruct (step_keeps_history sid m op s Hs Hop) as (s1 & Hs1 & Ha1 & Hst1 & Hc1 & Hx1 & Hn1).
    destruct (IH _ _ Hs1 Hops) as (s' & Hs' & Ha' & Hst' & Hc' & Hx' & Hn').
    exists s'. split; [exact Hs' |].
    split; [etrans; eassumption |]. split; [auto |].
    split; [congruence |]. split; [congruence | lia].
Qed.

(** *** check_session and end_session *)

(** X24: [check_session] changes nothing but the status of the session it checks:
    every other session stays as it is, status included, and so do the
    windows, the clock and every other field of the session checked; for an
    unknown session it returns "not_found" and creates nothing; for a session
    with fewer than two alerts it changes nothing at all. *)
Theorem check_session_reads (sid : string) (m : Monitor) :
  let m' := fst (check_session sid m) in
  _session_events m' = _session_events m
  /\ clock m' = clock m
  /\ (forall sid', sid' <> sid -> _sessions m' !! sid' = _sessions m !! sid')
  /\ set_status EmptyString <$> _sessions m' !! sid
     = set_status EmptyString <$> _sessions m !! sid
  /\ dom (_sessions m') = dom (_sessions m)
  /\ (_sessions m !! sid = None ->
      check_session sid m = (m, NotFound sid)
      /\ report_status (snd (check_session sid m)) = "not_found"%string)
  /\ (forall s, _sessions m !! sid = Some s ->
                (length (default [] (alerts s)) < 2)%nat ->
                check_session sid m = (m, Found s)).
Proof.
  intros m'. subst m'. unfold check_session.
  destruct (_sessions m !! sid) as [s |] eqn:Hs.
  - destruct (Nat.leb_spec 2 (length (default [] (alerts s)))) as [Hge | Hlt];
      cbn [fst snd _session_events clock _sessions].
    + split; [reflexivity |]. split; [reflexivity |].
      split; [intros sid' Hne; now rewrite lookup_insert_ne by congruence |].
      split; [rewrite ?lookup_insert_eq, ?Hs; reflexivity |].
      split.
      { apply dom_insert_lookup_L. now rewrite Hs. }
      split; [discriminate |].
      intros s0 [= <-] Hlt. lia.
    + split; [reflexivity |]. split; [reflexivity |]. split; [reflexivity |].
      split; [rewrite ?Hs; reflexivity |]. split; [reflexivity |].
      split; [discriminate |]. intros s0 [= <-] _. reflexivity.
  - cbn. split; [reflexivity |]. split; [reflexivity |]. split; [reflexivity |].
    split; [rewrite ?Hs; reflexivity |]. split; [reflexivity |].
    split; [auto | discriminate].
Qed.

Lemma check_session_reads_witness :
  _sessions alerted_monitor !! "s2"%string = None
  /\ report_status (snd (check_session "s2" alerted_monitor)) = "not_found"%string
  /\ _sessions (fst (check_session "s1" alerted_monitor)) !! "s2"%string = None.
Proof.
  assert (Hs : _sessions alerted_monitor !! "s2"%string = None) by (vm_compute; reflexivity).
  split; [exact Hs |].
  destruct (check_session_reads "s2" alerted_monitor) as (_ & _ & _ & _ & _ & Habsent & _).
  destruct (check_session_reads "s1" alerted_monitor) as (_ & _ & Hother & _).
  split; [exact (proj2 (Habsent Hs)) |].
  rewrite (Hother "s2"%string) by discriminate. exact Hs.
Defined.

(** X25: An ended session is not closed: the next event is counted as before, and
    when the counter then exceeds 100 MiB the status goes from "ended" to
    "suspicious", the end time staying in the session. *)
Theorem ended_session_revives (sid : string) (ev : SessionEvent) (m : Monitor) (s : SessionDict) :
  _sessions m !! sid = Some s ->
  100 * 1024 * 1024 < cumulative_bytes s + default 0 (bytes ev) ->
  let ended := end_session sid m in
  let s' := snd (update_session sid ev ended) in
  status <$> _sessions ended !! sid = Some "ended"%string
  /\ _sessions (fst (update_session sid ev ended)) !! sid = Some s'
  /\ status s' = "suspicious"%string
  /\ cumulative_bytes s' = cumulative_bytes s + default 0 (bytes ev)
  /\ ended_at s' = Some (clock m).
Proof.
  intros Hs Hbig ended s'.
  assert (Hended : _sessions ended !! sid =
                   Some {| session_id := session_id s; created_at := created_at s;
                           last_seen := last_seen s; context := context s;
                           status := "ended"; cumulative_bytes := cumulative_bytes s;
                           events_count := events_count s; alerts := alerts s;
                           ended_at := Some (clock m) |}).
  { unfold ended, end_session. rewrite Hs. cbn [_sessions]. apply lookup_insert_eq. }
  split; [now rewrite Hended |].
  split; [apply SessionFacts.update_session_stored |].
  pose proof (SessionFacts.update_session_existing sid ev ended _ Hended) as [Hcount Halerts].
  cbv zeta in Hcount, Halerts. fold s' in Hcount, Halerts.
  cbn [cumulative_bytes] in Hcount.
  destruct (Z.ltb_spec (100 * 1024 * 1024) (cumulative_bytes s')); [| lia].
  destruct Halerts as [Hstatus _].
  split; [exact Hstatus |]. split; [exact Hcount |].
  subst s'. unfold update_session. rewrite Hended.
  repeat match goal with
         | |- context [if ?c then _ else _] => destruct c
         end; reflexivity.
Qed.

(** Twenty-two events to twenty-one hosts: the alert counts the hosts. *)
Lemma many_destinations_flagged_witness :
  length (Samples.scan ++ [Samples.revisit]) = 22%nat
  /\ exists s,
      _sessions (run initial (Update "s9" <$> Samples.scan ++ [Samples.revisit])) !! "s9"%string
        = Some s
      /\ status s = "suspicious"%string
      /\ exists before a,
           default [] (alerts s) = before ++ [a]
           /\ reason a = "many_unique_destinations"%string
           /\ alert_unique_dst a = Some 21%nat.
Proof.
  split; [reflexivity |].
  assert (Hm : (length (default [] (_session_events initial !! "s9"%string)) <= 500)%nat)
    by (change (0 <= 500)%nat; lia).
  destruct (many_destinations_flagged "s9" Samples.scan Samples.revisit initial Hm)
    as (s & Hs & Hmany & _).
  exists s. split; [exact Hs |].
  apply Hmany. vm_compute. lia.
Defined.

Lemma updates_counted_witness :
  exists s,
    _sessions (run initial (Update "s9" <$> [flow "8.8.8.8" 10; probe; flow "1.1.1.1" (-3)]))
      !! "s9"%string = Some s
    /\ cumulative_bytes s = 0 + 7
    /\ events_count s = 0 + 3.
Proof.
  exact (updates_counted "s9" [flow "8.8.8.8" 10; probe; flow "1.1.1.1" (-3)] initial
           ltac:(discriminate)).
Defined.

Lemma session_history_kept_witness :
  status alerted_session = "suspicious"%string
  /\ exists s',
      _sessions (run alerted_monitor [Check "s1"; End_ "s1"; Update "s1" probe; Create "s2" ∅])
        !! "s1"%string = Some s'
      /\ default [] (alerts alerted_session) `prefix_of` default [] (alerts s')
      /\ (status alerted_session <> "active"%string -> status s' <> "active"%string)
      /\ created_at s' = created_at alerted_session
      /\ context s' = context alerted_session
      /\ events_count alerted_session <= events_count s'.
Proof.
  split; [reflexivity |].
  apply (session_history_kept "s1" [Check "s1"; End_ "s1"; Update "s1" probe; Create "s2" ∅]
           alerted_monitor alerted_session).
  - vm_compute. reflexivity.
  - repeat (apply Forall_cons; split; [cbn; first [exact I | discriminate] |]). constructor.
Defined.

Lemma ended_session_revives_witness :
  status <$> _sessions (end_session "s1" alerted_monitor) !! "s1"%string = Some "ended"%string
  /\ status (snd (update_session "s1" probe (end_session "s1" alerted_monitor)))
     = "suspicious"%string.
Proof.
  assert (Hs : _sessions alerted_monitor !! "s1"%string = Some alerted_session)
    by (vm_compute; reflexivity).
  assert (Hbig : 100 * 1024 * 1024 < cumulative_bytes alerted_session + default 0 (bytes probe))
    by (vm_compute; reflexivity).
  pose proof (ended_session_revives "s1" probe alerted_monitor alerted_session Hs Hbig)
    as (H1 & _ & H2 & _).
  split; [exact H1 | exact H2].
Defined.

End MonitorFacts.
